(** * The AI controller session engine (ai_controller_fast_action_v0.3.py)

    A shallow embedding of the controller: the command builder, the state
    frame handler, the image fetch and the two loops of a session, followed
    by the properties of the specification that were checked against it.

    Python values are modelled as the program has them: [str] as [string],
    [bytes] as [list Byte.byte], [float] as a sign, mantissa and binary
    exponent (with the two infinities and NaN), [dict] as a [gmap] with
    string keys.  A call that may raise returns a [result]. *)

From Stdlib Require Import ZArith QArith String Ascii List Bool Lia DecimalString.
From stdpp Require Import gmap strings.
Import ListNotations.
Open Scope string_scope.
Open Scope list_scope.

(** ** Exceptions and fallible results *)

Inductive exn :=
| AssertionError (msg : string)
| JSONDecodeError
| AttributeError
| KeyError (key : string)
| UnicodeEncodeError
| RecursionError
| SocketTimeout
| SocketError
| ImageError.

Inductive result (A : Type) :=
| Ok (a : A)
| Raise (e : exn).
Arguments Ok {A} a.
Arguments Raise {A} e.

(** Sequencing: the first exception raised ends the computation. *)
#[global] Instance result_bind : MBind result :=
  fun A B (k : A -> result B) (r : result A) =>
    match r with
    | Ok a => k a
    | Raise e => Raise e
    end.

(** ** Floats

    A Python [float] is an IEEE double: NaN, an infinity, or a finite number
    [(-1)^neg * m * 2^e].  The model keeps the sign apart from the mantissa,
    so that [-0.0] is a value of its own, and puts no bound on [m] and [e]:
    every double is of this form. *)

Inductive pyfloat :=
| FNan
| FInf (neg : bool)
| FFin (neg : bool) (m : N) (e : Z).

Definition signed (neg : bool) (m : N) : Z :=
  if neg then (- Z.of_N m)%Z else Z.of_N m.

(** [a <= b] on floats: false as soon as one side is NaN. *)
Definition float_le (a b : pyfloat) : bool :=
  match a, b with
  | FNan, _ | _, FNan => false
  | FInf true, _ => true
  | _, FInf false => true
  | FInf false, _ => false
  | _, FInf true => false
  | FFin n1 m1 e1, FFin n2 m2 e2 =>
      let e0 := Z.min e1 e2 in
      (signed n1 m1 * 2 ^ (e1 - e0) <=? signed n2 m2 * 2 ^ (e2 - e0))%Z
  end.

(** The real number a finite float stands for. *)
Definition float_val (x : pyfloat) : option Q :=
  match x with
  | FFin neg m e =>
      Some (if (0 <=? e)%Z then inject_Z (signed neg m * 2 ^ e)
            else signed neg m # Z.to_pos (2 ^ (- e)))
  | _ => None
  end.

Definition f0_0 : pyfloat := FFin false 0 0.
Definition f1_0 : pyfloat := FFin false 1 0.
Definition f0_5 : pyfloat := FFin false 1 (-1).
(** The doubles nearest to -0.1 and to 1.1. *)
Definition f_minus_0_1 : pyfloat := FFin true 3602879701896397 (-55).
Definition f1_1 : pyfloat := FFin false 2476979795053773 (-51).

(** Rounding [num / den] (with [0 <= num], [0 < den]) to the nearest
    integer, ties to even: the rounding of [format(x, '.2f')]. *)
Definition round_half_even (num den : Z) : Z :=
  let q := (num / den)%Z in
  let r := (num mod den)%Z in
  if (2 * r <? den)%Z then q
  else if (den <? 2 * r)%Z then (q + 1)%Z
  else if Z.even q then q else (q + 1)%Z.

Definition decimal (n : Z) : string :=
  NilZero.string_of_uint (N.to_uint (Z.to_N n)).

Definition two_digits (n : Z) : string :=
  if (n <? 10)%Z then "0" +:+ decimal n else decimal n.

(** [f"{x:.2f}"] *)
Definition format_2f (x : pyfloat) : string :=
  match x with
  | FNan => "nan"
  | FInf false => "inf"
  | FInf true => "-inf"
  | FFin neg m e =>
      let h := if (0 <=? e)%Z then (Z.of_N m * 2 ^ e * 100)%Z
               else round_half_even (Z.of_N m * 100) (2 ^ (- e)) in
      (if neg then "-" else "") +:+ decimal (h / 100) +:+ "." +:+ two_digits (h mod 100)
  end.

(** ** Command builder library (class AICommandBuilder) *)

Module AICommandBuilder.

(** The object's only attribute is [_commands]; a method that returns
    [self] returns the updated list, and a failed [assert] leaves the
    list as it was. *)
Definition t := list string.

Definition init : t := [].

(** [0.0 <= amount <= 1.0] *)
Definition amount_ok (amount : pyfloat) : bool :=
  float_le f0_0 amount && float_le amount f1_0.

Definition left (self : t) (amount : pyfloat) : result t :=
  if amount_ok amount
  then Ok (self ++ ["LEFT:" +:+ format_2f amount])
  else Raise (AssertionError "LEFT amount must be between 0.0 and 1.0").

Definition right (self : t) (amount : pyfloat) : result t :=
  if amount_ok amount
  then Ok (self ++ ["RIGHT:" +:+ format_2f amount])
  else Raise (AssertionError "RIGHT amount must be between 0.0 and 1.0").

Definition jump (self : t) (amount : pyfloat) : result t :=
  if amount_ok amount
  then Ok (self ++ ["JUMP:" +:+ format_2f amount])
  else Raise (AssertionError "JUMP amount must be between 0.0 and 1.0").

Definition pickup (self : t) : t := self ++ ["PICKUP"].
Definition drop (self : t) : t := self ++ ["DROP"].
Definition shoot (self : t) : t := self ++ ["SHOOT"].
Definition clear (self : t) : t := [].

(** [";".join(self._commands)] *)
Definition build (self : t) : string := String.concat ";" self.

End AICommandBuilder.

(** The newline character, and the command frame of a builder. *)
Definition nl : string := String (ascii_of_nat 10) "".

(** [random_choose_cmd], with the outcome of [random.choice([0,..,5])]
    as its argument. *)
Definition random_choose_cmd (cmd_type : Z) : result string :=
  let builder := AICommandBuilder.clear AICommandBuilder.init in
  builder ←
    (if (cmd_type =? 0)%Z then AICommandBuilder.left builder f1_0
     else if (cmd_type =? 1)%Z then AICommandBuilder.right builder f1_0
     else if (cmd_type =? 2)%Z then AICommandBuilder.jump builder f1_0
     else if (cmd_type =? 3)%Z then Ok (AICommandBuilder.pickup builder)
     else if (cmd_type =? 4)%Z then Ok (AICommandBuilder.drop builder)
     else Ok (AICommandBuilder.shoot builder));
  Ok (AICommandBuilder.build builder +:+ nl).

(** ** Python values, as [json.loads] produces them *)

#[warnings="-register-all"]
Inductive pyval :=
| VNone
| VBool (b : bool)
| VInt (z : Z)
| VFloat (f : pyfloat)
| VStr (s : string)
| VList (l : list pyval)
| VDict (d : gmap string pyval).

(** The truth value of an object in an [if] or an [or]. *)
Definition truthy (v : pyval) : bool :=
  match v with
  | VNone => false
  | VBool b => b
  | VInt z => negb (z =? 0)%Z
  | VFloat (FFin _ m _) => negb (m =? 0)%N
  | VFloat _ => true
  | VStr s => negb (String.eqb s "")
  | VList l => negb (Nat.eqb (length l) 0)
  | VDict d => negb (Nat.eqb (size d) 0)
  end.

(** [d.get(key, dflt)] and [d[key]] *)
Definition dict_get (d : gmap string pyval) (key : string) (dflt : pyval) : pyval :=
  default dflt (d !! key).

Definition dict_getitem (d : gmap string pyval) (key : string) : result pyval :=
  match d !! key with
  | Some v => Ok v
  | None => Raise (KeyError key)
  end.

(** ** Strings and bytes *)

Definition newline : ascii := ascii_of_nat 10.

(** [line, buffer = buffer.split("\n", 1)], or [None] when there is no
    newline in the buffer. *)
Fixpoint split_nl (buffer : string) : option (string * string) :=
  match buffer with
  | EmptyString => None
  | String c rest =>
      if Ascii.eqb c newline then Some ("", rest)
      else match split_nl rest with
           | Some (line, rest') => Some (String c line, rest')
           | None => None
           end
  end.

(** [str.isspace] on the characters an ASCII decoding can produce:
    tab to carriage return, the four separators 0x1c-0x1f, and space. *)
Definition py_isspace (c : ascii) : bool :=
  let n := nat_of_ascii c in
  ((9 <=? n)%nat && (n <=? 13)%nat) || ((28 <=? n)%nat && (n <=? 31)%nat) || (n =? 32)%nat.

Fixpoint lstrip (s : string) : string :=
  match s with
  | EmptyString => ""
  | String c rest => if py_isspace c then lstrip rest else s
  end.

Fixpoint rstrip (s : string) : string :=
  match s with
  | EmptyString => ""
  | String c rest =>
      match rstrip rest with
      | EmptyString => if py_isspace c then "" else String c ""
      | rest' => String c rest'
      end
  end.

(** [s.strip()] *)
Definition strip (s : string) : string := rstrip (lstrip s).

(** [chunk.decode("ascii", errors="ignore")]: bytes above 127 are dropped. *)
Fixpoint decode_ascii_ignore (chunk : list Byte.byte) : string :=
  match chunk with
  | [] => ""
  | b :: rest =>
      if (Byte.to_N b <? 128)%N
      then String (ascii_of_byte b) (decode_ascii_ignore rest)
      else decode_ascii_ignore rest
  end.

(** [s.encode("ascii")]: a character above 127 raises. *)
Fixpoint encode_ascii (s : string) : result (list Byte.byte) :=
  match s with
  | EmptyString => Ok []
  | String c rest =>
      if (N_of_ascii c <? 128)%N
      then bs ← encode_ascii rest; Ok (byte_of_ascii c :: bs)
      else Raise UnicodeEncodeError
  end.

(** [int.from_bytes(bs, byteorder="big")] *)
Definition int_from_bytes_big (bs : list Byte.byte) : N :=
  fold_left (fun acc b => (acc * 256 + Byte.to_N b)%N) bs 0%N.

(** ** What the program does to the outside world *)

Inductive message :=
| MsgConnected
| MsgState (isDead numActivePlayers hasWeapon numWeapons gameEnded : pyval)
| MsgJSONParseError (line : string)
| MsgGameEnded
| MsgSavedFrame
| MsgIncompletePrefix
| MsgClosedMidImage
| MsgFetchFailed (e : exn)
| MsgSendFailed (e : exn).

Inductive effect :=
| Sent (data : list Byte.byte)      (* conn.sendall(data) *)
| Printed (msg : message)           (* print(...) *)
| Saved (file : string).            (* img.save(file) *)

(** ** The connection, seen from the controller

    The peer's side of the socket is the list of what the next reads will
    meet, in order: a segment of bytes (an empty one when the peer has
    closed), a second without data, or a socket failure.  When the list is
    used up nothing more arrives, and a read times out ([conn.settimeout(1.0)]). *)

Inductive arrival :=
| Data (bs : list Byte.byte)
| Timeout
| Fault.

(** [conn.recv(n)]: at most [n] bytes of the first segment; what it leaves
    stays for the next read. *)
Definition recv (n : N) (inbox : list arrival) : result (list Byte.byte) * list arrival :=
  match inbox with
  | [] => (Raise SocketTimeout, [])
  | Timeout :: rest => (Raise SocketTimeout, rest)
  | Fault :: rest => (Raise SocketError, rest)
  | Data bs :: rest =>
      if (N.of_nat (length bs) <=? n)%N then (Ok bs, rest)
      else (Ok (take (N.to_nat n) bs), Data (drop (N.to_nat n) bs) :: rest)
  end.

(** ** External collaborators: the JSON decoder, the image codec and the
    standard output *)

Class Externals := {
  Image : Type;
  (** [json.loads(s)] *)
  json_loads : string -> result pyval;
  (** [Image.open(io.BytesIO(data))] *)
  image_open : list Byte.byte -> result Image;
  (** whether [sys.stdout] can encode the text of a value: [print] raises
      [UnicodeEncodeError] on a string it cannot encode, such as one with
      a lone surrogate *)
  printable : pyval -> bool;
}.

Section Controller.

Context `{Externals}.

(** ** handle_state *)

Record state_update := {
  has_game_ended : bool;
  new_shared_state : gmap string pyval;
  printed : list effect;
}.

(** The five assignments made under the lock. *)
Definition store_state (state_json shared_state : gmap string pyval)
  : gmap string pyval :=
  let shared_state := <["isDead" := dict_get state_json "isDead" (VBool false)]> shared_state in
  let shared_state :=
    <["numActivePlayers" := dict_get state_json "numActivePlayers" (VInt 0)]> shared_state in
  let shared_state := <["hasWeapon" := dict_get state_json "hasWeapon" (VBool false)]> shared_state in
  let shared_state := <["numWeapons" := dict_get state_json "numWeapons" (VInt 0)]> shared_state in
  <["gameEnded" := dict_get state_json "gameEnded" (VBool false)]> shared_state.

(** A line that is JSON but not an object has no [get]: the first
    assignment raises [AttributeError] before anything is stored.  The
    [print] of the five values comes after the assignments and raises
    when one of them cannot be written to the standard output. *)
Definition handle_state (state_str : string) (shared_state : gmap string pyval)
  : result state_update :=
  state_json ← json_loads state_str;
  match state_json with
  | VDict state_json =>
      let shared_state := store_state state_json shared_state in
      v1 ← dict_getitem shared_state "isDead";
      v2 ← dict_getitem shared_state "numActivePlayers";
      v3 ← dict_getitem shared_state "hasWeapon";
      v4 ← dict_getitem shared_state "numWeapons";
      v5 ← dict_getitem shared_state "gameEnded";
      _ ←
        (if printable v1 && printable v2 && printable v3 && printable v4 && printable v5
         then Ok tt else Raise UnicodeEncodeError);
      ended ←
        (if truthy (dict_get state_json "gameEnded" (VBool false)) then Ok true
         else is_dead ← dict_getitem shared_state "isDead"; Ok (truthy is_dead));
      Ok {| has_game_ended := ended;
            new_shared_state := shared_state;
            printed := [Printed (MsgState v1 v2 v3 v4 v5)] |}
  | _ => Raise AttributeError
  end.

(** [shared_state] is changed in place: what it holds once the call has
    returned or raised. *)
Definition shared_state_after (state_str : string) (shared_state : gmap string pyval)
  : gmap string pyval :=
  match json_loads state_str with
  | Ok (VDict state_json) => store_state state_json shared_state
  | _ => shared_state
  end.

(** Whether the five values [handle_state] prints for a frame can all be
    written. *)
Definition frame_printable (state_json : gmap string pyval) : bool :=
  printable (dict_get state_json "isDead" (VBool false))
  && printable (dict_get state_json "numActivePlayers" (VInt 0))
  && printable (dict_get state_json "hasWeapon" (VBool false))
  && printable (dict_get state_json "numWeapons" (VInt 0))
  && printable (dict_get state_json "gameEnded" (VBool false)).

(** ** request_image *)

Inductive payload :=
| Complete (data : list Byte.byte)
| ClosedMidImage
| ReadFailed (e : exn).

(** The loop [while len(data) < img_size: packet = conn.recv(img_size - len(data)) ...]
    with [conn.recv] unfolded (see [read_payload_unfold]), so that it
    recurses on the list of arrivals. *)
Fixpoint read_payload (inbox : list arrival) (img_size : N) (data : list Byte.byte)
  : payload * list arrival :=
  if (img_size <=? N.of_nat (length data))%N then (Complete data, inbox)
  else
    match inbox with
    | [] => (ReadFailed SocketTimeout, [])
    | Timeout :: rest => (ReadFailed SocketTimeout, rest)
    | Fault :: rest => (ReadFailed SocketError, rest)
    | Data bs :: rest =>
        let n := (img_size - N.of_nat (length data))%N in
        if (N.of_nat (length bs) <=? n)%N then
          match bs with
          | [] => (ClosedMidImage, rest)
          | _ => read_payload rest img_size (data ++ bs)
          end
        else (Complete (data ++ take (N.to_nat n) bs), Data (drop (N.to_nat n) bs) :: rest)
    end.

Definition GET_IMAGE : list Byte.byte :=
  [Byte.x47; Byte.x45; Byte.x54; Byte.x5f; Byte.x49; Byte.x4d; Byte.x41; Byte.x47;
   Byte.x45; Byte.x0a].

(** The body of the [try]: the image, [None] from one of the two early
    returns, or the exception that left it.  [send_ok] tells whether
    [conn.sendall] went through. *)
Definition request_image_try (send_ok : bool) (inbox : list arrival)
  : result (option Image) * list arrival * list effect :=
  if negb send_ok then (Raise SocketError, inbox, [])
  else
    let out := [Sent GET_IMAGE] in
    let '(length_bytes, inbox) := recv 4 inbox in
    match length_bytes with
    | Raise e => (Raise e, inbox, out)
    | Ok length_bytes =>
        if (length length_bytes <? 4)%nat
        then (Ok None, inbox, out ++ [Printed MsgIncompletePrefix])
        else
          let img_size := int_from_bytes_big length_bytes in
          let '(data, inbox) := read_payload inbox img_size [] in
          match data with
          | ReadFailed e => (Raise e, inbox, out)
          | ClosedMidImage => (Ok None, inbox, out ++ [Printed MsgClosedMidImage])
          | Complete data =>
              match image_open data with
              | Ok img => (Ok (Some img), inbox, out)
              | Raise e => (Raise e, inbox, out)
              end
          end
    end.

(** [except Exception as e: print(...); return None] *)
Definition request_image (send_ok : bool) (inbox : list arrival)
  : option Image * list arrival * list effect :=
  let '(r, inbox, out) := request_image_try send_ok inbox in
  match r with
  | Ok img => (img, inbox, out)
  | Raise e => (None, inbox, out ++ [Printed (MsgFetchFailed e)])
  end.

(** [ai_image_analyzer]: the image is not looked at. *)
Definition ai_image_analyzer (image : Image) (cmd_type : Z) : result string :=
  random_choose_cmd cmd_type.

(** [should_fetch_image] *)
Definition should_fetch_image (state : gmap string pyval) : bool := true.

(** ** A session: handle_client, recv_loop and send_loop

    The state holds the two module globals the loops use, the locals of
    [handle_client] that its two threads share, the receiver's line
    buffer, the connection, and where each thread stands. *)

Inductive recv_pc :=
| RecvPoll        (* at the test of the outer [while] *)
| RecvLines       (* at the test of [while "\n" in buffer] *)
| RecvExited.

Inductive send_pc :=
| SendPoll              (* at the test of the [while] *)
| SendClear             (* [sendall] has returned, [next_command = None] is next *)
| SendSleep (n : nat)   (* in the [for] loop, [n] rounds to go *)
| SendExited.

Record state := {
  shutdown : bool;
  next_command : option string;
  shared_state : gmap string pyval;
  stop_event : bool;
  buffer : string;
  inbox : list arrival;
  effects : list effect;
  receiver : recv_pc;
  sender : send_pc;
}.

Definition set_shutdown (s : state) : state :=
  {| shutdown := true; next_command := next_command s;
     shared_state := shared_state s; stop_event := stop_event s; buffer := buffer s;
     inbox := inbox s; effects := effects s; receiver := receiver s; sender := sender s |}.

Definition set_next_command (c : option string) (s : state) : state :=
  {| shutdown := shutdown s; next_command := c;
     shared_state := shared_state s; stop_event := stop_event s; buffer := buffer s;
     inbox := inbox s; effects := effects s; receiver := receiver s; sender := sender s |}.

Definition set_shared_state (d : gmap string pyval) (s : state) : state :=
  {| shutdown := shutdown s; next_command := next_command s;
     shared_state := d; stop_event := stop_event s; buffer := buffer s;
     inbox := inbox s; effects := effects s; receiver := receiver s; sender := sender s |}.

(** [stop_event.set()] *)
Definition set_stop (s : state) : state :=
  {| shutdown := shutdown s; next_command := next_command s;
     shared_state := shared_state s; stop_event := true; buffer := buffer s;
     inbox := inbox s; effects := effects s; receiver := receiver s; sender := sender s |}.

Definition set_buffer (b : string) (s : state) : state :=
  {| shutdown := shutdown s; next_command := next_command s;
     shared_state := shared_state s; stop_event := stop_event s; buffer := b;
     inbox := inbox s; effects := effects s; receiver := receiver s; sender := sender s |}.

Definition set_inbox (i : list arrival) (s : state) : state :=
  {| shutdown := shutdown s; next_command := next_command s;
     shared_state := shared_state s; stop_event := stop_event s; buffer := buffer s;
     inbox := i; effects := effects s; receiver := receiver s; sender := sender s |}.

Definition emit (out : list effect) (s : state) : state :=
  {| shutdown := shutdown s; next_command := next_command s;
     shared_state := shared_state s; stop_event := stop_event s; buffer := buffer s;
     inbox := inbox s; effects := effects s ++ out; receiver := receiver s;
     sender := sender s |}.

Definition set_receiver (pc : recv_pc) (s : state) : state :=
  {| shutdown := shutdown s; next_command := next_command s;
     shared_state := shared_state s; stop_event := stop_event s; buffer := buffer s;
     inbox := inbox s; effects := effects s; receiver := pc; sender := sender s |}.

Definition set_sender (pc : send_pc) (s : state) : state :=
  {| shutdown := shutdown s; next_command := next_command s;
     shared_state := shared_state s; stop_event := stop_event s; buffer := buffer s;
     inbox := inbox s; effects := effects s; receiver := receiver s; sender := pc |}.

(** [while not stop_event.is_set() and not shutdown] *)
Definition keep_running (s : state) : bool :=
  negb (stop_event s) && negb (shutdown s).

(** An exception that leaves [recv_loop]: the [finally] clause sets the
    stop signal and the thread ends. *)
Definition recv_finally (s : state) : state :=
  set_receiver RecvExited (set_stop s).

(** What the environment decides while the receiver handles one line:
    whether the image request can be sent, the draw of [random.choice],
    and whether [img.save] succeeds. *)
Record line_env := {
  request_ok : bool;
  cmd_type : Z;
  save_ok : bool;
}.

(** One pass through the outer loop of [recv_loop], up to the inner loop:
    the loop test and [conn.recv(4096)]. *)
Definition recv_poll (s : state) : state :=
  if keep_running s then
    let '(chunk, inbox) := recv 4096 (inbox s) in
    let s := set_inbox inbox s in
    match chunk with
    | Raise SocketTimeout => s
    | Raise _ => recv_finally s
    | Ok [] => s
    | Ok chunk =>
        set_receiver RecvLines (set_buffer (buffer s +:+ decode_ascii_ignore chunk) s)
    end
  else recv_finally s.

(** The test of the inner loop and one pass through its body. *)
Definition recv_line (env : line_env) (s : state) : state :=
  match split_nl (buffer s) with
  | None => set_receiver RecvPoll s
  | Some (line, buffer) =>
      let s := set_buffer buffer s in
      let line := strip line in
      if String.eqb line "" then s
      else
        match handle_state line (shared_state s) with
        | Raise JSONDecodeError => emit [Printed (MsgJSONParseError line)] s
        | Raise _ =>
            recv_finally (set_shared_state (shared_state_after line (shared_state s)) s)
        | Ok upd =>
            let s := emit (printed upd) (set_shared_state (new_shared_state upd) s) in
            if has_game_ended upd then
              set_receiver RecvPoll (set_stop (emit [Printed MsgGameEnded] s))
            else if should_fetch_image (shared_state s) then
              let '(img, inbox, out) := request_image (request_ok env) (inbox s) in
              let s := emit out (set_inbox inbox s) in
              match img with
              | Some img =>
                  match ai_image_analyzer img (cmd_type env) with
                  | Raise _ => recv_finally s
                  | Ok cmd =>
                      let s := set_next_command (Some cmd) s in
                      if save_ok env
                      then emit [Saved "latest_frame.png"; Printed MsgSavedFrame] s
                      else recv_finally s
                  end
              | None => s
              end
            else s
        end
  end.

Definition recv_step (env : line_env) (s : state) : state :=
  match receiver s with
  | RecvPoll => recv_poll s
  | RecvLines => recv_line env s
  | RecvExited => s
  end.

(** [if next_command:] *)
Definition pending (c : option string) : option string :=
  match c with
  | Some cmd => if String.eqb cmd "" then None else Some cmd
  | None => None
  end.

(** One pass through [send_loop], in three kinds of steps: the loop test
    with the transmission, the assignment that empties the slot, and a
    round of the sleeping loop.  [send_ok] tells whether [conn.sendall]
    goes through.  The copy [latest] of the shared state is not used by
    the loop and is left out. *)
Definition send_step (send_ok : bool) (s : state) : state :=
  match sender s with
  | SendPoll =>
      if keep_running s then
        match pending (next_command s) with
        | Some cmd =>
            match encode_ascii cmd with
            | Ok data =>
                if send_ok then set_sender SendClear (emit [Sent data] s)
                else set_sender SendExited
                       (set_stop (emit [Printed (MsgSendFailed SocketError)] s))
            | Raise e =>
                set_sender SendExited (set_stop (emit [Printed (MsgSendFailed e)] s))
            end
        | None => set_sender (SendSleep 10) s
        end
      else set_sender SendExited s
  | SendClear => set_sender (SendSleep 10) (set_next_command None s)
  | SendSleep 0 => set_sender SendPoll s
  | SendSleep (S n) =>
      if keep_running s then set_sender (SendSleep n) s
      else set_sender SendPoll s
  | SendExited => s
  end.

(** The scheduler and the environment: which thread moves next, and
    with what outcome of the calls it makes; or Ctrl+C. *)
Inductive event :=
| Receiver (env : line_env)
| Sender (send_ok : bool)
| Sigint.

Definition step (s : state) (ev : event) : state :=
  match ev with
  | Receiver env => recv_step env s
  | Sender send_ok => send_step send_ok s
  | Sigint => set_shutdown s
  end.

Definition run (schedule : list event) (s : state) : state :=
  fold_left step schedule s.

(** [handle_client]: the session's own objects are created, the two
    module globals are whatever they are at that moment. *)
Definition handle_client (shutdown0 : bool) (next_command0 : option string)
    (peer : list arrival) : state :=
  {| shutdown := shutdown0;
     next_command := next_command0;
     shared_state := <["numActivePlayers" := VInt 0]> (<["isDead" := VBool false]> ∅);
     stop_event := false;
     buffer := "";
     inbox := peer;
     effects := [Printed MsgConnected];
     receiver := RecvPoll;
     sender := SendPoll |}.

(** [receiver.join(); stop_event.set(); sender.join()] has returned. *)
Definition session_over (s : state) : bool :=
  match receiver s, sender s with
  | RecvExited, SendExited => true
  | _, _ => false
  end.

(** [run_ai_server]: connections are served one after the other, each
    with what its peer sends and the schedule of its session; the next
    one is accepted once [handle_client] has returned.  The result lists
    the sessions' last states.  The module starts with
    [shutdown = False] and [next_command = None]. *)
Fixpoint serve (shutdown0 : bool) (next_command0 : option string)
    (connections : list (list arrival * list event)) : list state :=
  match connections with
  | [] => []
  | (peer, schedule) :: rest =>
      if shutdown0 then []
      else
        let s := run schedule (handle_client shutdown0 next_command0 peer) in
        s :: (if session_over s then serve (shutdown s) (next_command s) rest else [])
  end.

Definition run_ai_server (connections : list (list arrival * list event)) : list state :=
  serve false None connections.

(** The command frames and image requests a session has put on the wire. *)
Definition sent_data (e : effect) : option (list Byte.byte) :=
  match e with
  | Sent data => Some data
  | _ => None
  end.

Definition transmitted (s : state) : list (list Byte.byte) :=
  omap sent_data (effects s).

End Controller.

(** ** A decoder and a codec for the scenarios

    The properties below hold for every decoder, codec and standard
    output.  To run the model on concrete input, this instance decodes the
    JSON the peer sends in the scenarios: an object whose values are
    [true], [false], [null], integers or strings without escapes, or one
    such value alone, and text that opens with a thousand brackets or more,
    on which the recursive scanner of [json.loads] gives up with
    [RecursionError].  It does not decode lists, floats or escapes, which
    the scenarios do not use.  The codec knows one file, a GIF image of
    one pixel; the scenarios use no other image.  Everything decoded is
    ASCII text, which every standard output can write. *)

Module Frames.

Definition dquote : ascii := ascii_of_nat 34.

Inductive token :=
| TLBrace | TRBrace | TColon | TComma
| TString (s : string)
| TWord (w : string).

Inductive lex_mode :=
| LNormal
| LString (acc : string)
| LWord (acc : string).

(** The four whitespace characters of JSON. *)
Definition json_space (c : ascii) : bool :=
  let n := nat_of_ascii c in
  (n =? 32)%nat || (n =? 9)%nat || (n =? 10)%nat || (n =? 13)%nat.

Definition punct (c : ascii) : option token :=
  if Ascii.eqb c "{" then Some TLBrace
  else if Ascii.eqb c "}" then Some TRBrace
  else if Ascii.eqb c ":" then Some TColon
  else if Ascii.eqb c "," then Some TComma
  else None.

Definition flush (mode : lex_mode) (toks : list token) : list token :=
  match mode with
  | LWord w => TWord w :: toks
  | _ => toks
  end.

Fixpoint lex (mode : lex_mode) (s : string) : option (list token) :=
  match s with
  | EmptyString =>
      match mode with
      | LString _ => None
      | _ => Some (flush mode [])
      end
  | String c rest =>
      match mode with
      | LString acc =>
          if Ascii.eqb c dquote then cons (TString acc) <$> lex LNormal rest
          else if Ascii.eqb c "\" then None
          else if (nat_of_ascii c <? 32)%nat then None
          else lex (LString (acc +:+ String c "")) rest
      | _ =>
          if json_space c then flush mode <$> lex LNormal rest
          else
            match punct c with
            | Some t => (fun toks => flush mode (t :: toks)) <$> lex LNormal rest
            | None =>
                if Ascii.eqb c dquote then flush mode <$> lex (LString "") rest
                else
                  match mode with
                  | LWord w => lex (LWord (w +:+ String c "")) rest
                  | _ => lex (LWord (String c "")) rest
                  end
            end
      end
  end.

Fixpoint digits (s : string) (acc : Z) : option Z :=
  match s with
  | EmptyString => Some acc
  | String c rest =>
      let n := nat_of_ascii c in
      if ((48 <=? n)%nat && (n <=? 57)%nat)
      then digits rest (10 * acc + Z.of_nat (n - 48))%Z
      else None
  end.

(** An integer without sign: no leading zero but in [0] itself. *)
Definition natural (w : string) : option Z :=
  match w with
  | EmptyString => None
  | String "0" (String _ _) => None
  | _ => digits w 0
  end.

Definition word (w : string) : option pyval :=
  if String.eqb w "true" then Some (VBool true)
  else if String.eqb w "false" then Some (VBool false)
  else if String.eqb w "null" then Some VNone
  else
    match w with
    | String "-" rest => (fun z => VInt (- z)) <$> natural rest
    | _ => VInt <$> natural w
    end.

Definition scalar (t : token) : option pyval :=
  match t with
  | TString s => Some (VStr s)
  | TWord w => word w
  | _ => None
  end.

Fixpoint members (toks : list token) (acc : gmap string pyval)
  : option (gmap string pyval) :=
  match toks with
  | TString k :: TColon :: v :: more =>
      match scalar v, more with
      | Some v, [TRBrace] => Some (<[k := v]> acc)
      | Some v, TComma :: more => members more (<[k := v]> acc)
      | _, _ => None
      end
  | _ => None
  end.

Definition parse (toks : list token) : option pyval :=
  match toks with
  | [TLBrace; TRBrace] => Some (VDict ∅)
  | TLBrace :: toks => VDict <$> members toks ∅
  | [t] => scalar t
  | _ => None
  end.

(** The default of [sys.getrecursionlimit()], and the number of brackets
    a text opens with. *)
Definition recursion_limit : nat := 1000.

Fixpoint leading_brackets (s : string) : nat :=
  match s with
  | String "[" rest => S (leading_brackets rest)
  | _ => 0
  end.

Definition loads (s : string) : result pyval :=
  if (recursion_limit <=? leading_brackets s)%nat then Raise RecursionError
  else
    match lex LNormal s ≫= parse with
    | Some v => Ok v
    | None => Raise JSONDecodeError
    end.

(** A GIF file of 35 bytes: the signature GIF89a, a screen of one pixel by
    one with a colour table of two entries, one image of one pixel, and
    the trailer. *)
Definition pixel_gif : list Byte.byte :=
  [Byte.x47; Byte.x49; Byte.x46; Byte.x38; Byte.x39; Byte.x61;
   Byte.x01; Byte.x00; Byte.x01; Byte.x00; Byte.x80; Byte.x00; Byte.x00;
   Byte.xff; Byte.xff; Byte.xff; Byte.x00; Byte.x00; Byte.x00;
   Byte.x2c; Byte.x00; Byte.x00; Byte.x00; Byte.x00; Byte.x01; Byte.x00; Byte.x01;
   Byte.x00; Byte.x00;
   Byte.x02; Byte.x02; Byte.x44; Byte.x01; Byte.x00;
   Byte.x3b].

Fixpoint bytes_eqb (a b : list Byte.byte) : bool :=
  match a, b with
  | [], [] => true
  | x :: a, y :: b => Byte.eqb x y && bytes_eqb a b
  | _, _ => false
  end.

Definition open (data : list Byte.byte) : result (list Byte.byte) :=
  if bytes_eqb data pixel_gif then Ok data else Raise ImageError.

#[global] Instance externals : Externals :=
  {| Image := list Byte.byte; json_loads := loads; image_open := open;
     printable := fun _ => true |}.

(** Writing frames: a name or string in double quotes, and a line as
    the bytes the peer sends. *)
Definition q (s : string) : string := String dquote s +:+ String dquote "".

Definition bytes (s : string) : list Byte.byte := map byte_of_ascii (list_ascii_of_string s).

End Frames.


(** ** Vocabulary of the specification *)

(** An amount in [[0, 1]]: a finite float whose value lies between 0 and 1. *)
Definition in_unit_interval (amount : pyfloat) : Prop :=
  exists q : Q, float_val amount = Some q /\ (0 <= q)%Q /\ (q <= 1)%Q.

(** The builder object after a call on it: a call that raised has not
    reached its [append]. *)
Definition commands_after (self : AICommandBuilder.t) (r : result AICommandBuilder.t)
  : AICommandBuilder.t :=
  match r with
  | Ok self' => self'
  | Raise _ => self
  end.

Definition raises {A : Type} (r : result A) : Prop :=
  exists e, r = Raise e.

(** ["\n" in s] *)
Fixpoint has_newline (s : string) : bool :=
  match s with
  | EmptyString => false
  | String c rest => Ascii.eqb c newline || has_newline rest
  end.

(** A line that is empty or made of whitespace only. *)
Definition blank (line : string) : bool :=
  forallb py_isspace (list_ascii_of_string line).

(** The next read finds the connection closed, or nothing within the
    timeout. *)
Inductive interrupted : list arrival -> Prop :=
| interrupted_closed rest : interrupted (Data [] :: rest)
| interrupted_timeout rest : interrupted (Timeout :: rest)
| interrupted_silent : interrupted [].

(** The three ways an image fetch falls short: the read of the length
    prefix returns fewer than 4 bytes; a read times out or meets a closed
    connection at once; or the prefix arrives, announcing [L] bytes, and the
    segments that follow it bring fewer than [L] bytes before the connection
    closes or a read times out. *)
Definition fetch_fault (inbox : list arrival) : Prop :=
  (exists bs rest, inbox = Data bs :: rest /\ (length bs < 4)%nat)
  \/ interrupted inbox
  \/ (exists first segs rest,
        inbox = Data first :: map Data segs ++ rest
        /\ (4 <= length first)%nat
        /\ Forall (fun seg => seg <> []) segs
        /\ (N.of_nat (length (drop 4 first) + length (concat segs))
            < int_from_bytes_big (take 4 first))%N
        /\ interrupted rest).

Section Vocabulary.

Context `{Externals}.

(** The receiver's next step handles a state frame, fetches an image
    and stores the decision [cmd] in the slot. *)
Definition writes (env : line_env) (s : state) (cmd : string) : Prop :=
  receiver s = RecvLines
  /\ exists line rest upd img inbox' out,
      split_nl (buffer s) = Some (line, rest)
      /\ String.eqb (strip line) "" = false
      /\ handle_state (strip line) (shared_state s) = Ok upd
      /\ has_game_ended upd = false
      /\ request_image (request_ok env) (inbox s) = (Some img, inbox', out)
      /\ ai_image_analyzer img (cmd_type env) = Ok cmd
      /\ save_ok env = true.

(** The state such a step leaves. *)
Definition decided (rest : string) (upd : state_update) (inbox' : list arrival)
    (cmd : string) (s : state) : state :=
  emit [Saved "latest_frame.png"; Printed MsgSavedFrame]
    (set_next_command (Some cmd)
       (emit [Sent GET_IMAGE]
          (set_inbox inbox'
             (emit (printed upd)
                (set_shared_state (new_shared_state upd) (set_buffer rest s)))))).

(** The specification's sentence on closed connections: a read that returns no bytes sets
    the stop signal and ends the receiver. *)
Definition empty_read_stops_receiver : Prop :=
  forall (s : state) (env : line_env) (rest : list arrival),
    receiver s = RecvPoll ->
    keep_running s = true ->
    inbox s = Data [] :: rest ->
    stop_event (step s (Receiver env)) = true
    /\ receiver (step s (Receiver env)) = RecvExited.


(** The specification's sentence on lines that fail to decode: whatever
    the decoder raises, the line is skipped, with the snapshot and the stop
    signal as they were and the receiver still in its line loop. *)
Definition failed_decode_is_skipped : Prop :=
  forall (s : state) (env : line_env) (line rest : string) (e : exn),
    receiver s = RecvLines ->
    buffer s = line +:+ String newline rest ->
    has_newline line = false ->
    json_loads (strip line) = Raise e ->
    shared_state (step s (Receiver env)) = shared_state s
    /\ stop_event (step s (Receiver env)) = stop_event s
    /\ receiver (step s (Receiver env)) = RecvLines.
End Vocabulary.

(** ** Scenarios *)

Import Frames.

Module Scenario.

Definition env_jump : line_env := {| request_ok := true; cmd_type := 2; save_ok := true |}.
Definition env_left : line_env := {| request_ok := true; cmd_type := 0; save_ok := true |}.

(** The two frames of the end-to-end scenario. *)
Definition active_frame : string :=
  "{" +:+ q "isDead" +:+ ":false," +:+ q "numActivePlayers" +:+ ":2,"
  +:+ q "hasWeapon" +:+ ":true," +:+ q "numWeapons" +:+ ":1,"
  +:+ q "gameEnded" +:+ ":false}".

Definition ended_frame : string := "{" +:+ q "gameEnded" +:+ ":true}".

(** What [handle_state] makes of [active_frame] in a new session. *)
Definition active_update : state_update :=
  {| has_game_ended := false;
     new_shared_state :=
       <["gameEnded" := VBool false]>
         (<["numWeapons" := VInt 1]>
            (<["hasWeapon" := VBool true]>
               (<["numActivePlayers" := VInt 2]> (<["isDead" := VBool false]> ∅))));
     printed :=
       [Printed (MsgState (VBool false) (VInt 2) (VBool true) (VInt 1) (VBool false))] |}.

(** The image [pixel_gif], announced by its length of 35 bytes and
    arriving in two segments, and the same image with the connection
    closed after 19 of the 35 bytes. *)
Definition image : list arrival :=
  [Data ([Byte.x00; Byte.x00; Byte.x00; Byte.x23] ++ take 6 pixel_gif);
   Data (drop 6 pixel_gif)].

Definition cut_image : list arrival :=
  [Data ([Byte.x00; Byte.x00; Byte.x00; Byte.x23] ++ take 6 pixel_gif);
   Data (take 13 (drop 6 pixel_gif)); Data []].

(** A session whose receiver has read [text] in one chunk, with [peer]
    still to come. *)
Definition after_chunk (text : string) (peer : list arrival) : state :=
  step (handle_client false None (Data (bytes text) :: peer)) (Receiver env_jump).



Definition silent_peer : list arrival * list event :=
  ([], [Sender true]).

Definition carriage_return : string := String (ascii_of_nat 13) "".

End Scenario.

Import Scenario.

(** ** Vocabulary of the further properties *)

(** The five fields of a state frame with the values [handle_state]
    stores when a frame leaves them out. *)
Definition snapshot_fields : list (string * pyval) :=
  [("isDead", VBool false); ("numActivePlayers", VInt 0); ("hasWeapon", VBool false);
   ("numWeapons", VInt 0); ("gameEnded", VBool false)].

(** The number of newlines in a string: the lines the inner loop of
    [recv_loop] still finds in its buffer. *)
Fixpoint count_nl (s : string) : nat :=
  match s with
  | EmptyString => 0
  | String c rest => (if Ascii.eqb c newline then 1 else 0) + count_nl rest
  end.

(** All the bytes a list of arrivals delivers, in order. *)
Fixpoint delivered (inbox : list arrival) : list Byte.byte :=
  match inbox with
  | [] => []
  | Data bs :: rest => bs ++ delivered rest
  | _ :: rest => delivered rest
  end.

(** Either flag that ends the two loops is set. *)
Definition halting (s : state) : bool := stop_event s || shutdown s.

(** Bounds on the steps a thread still takes once a flag is set. *)
Definition receiver_steps_left (s : state) : nat :=
  match receiver s with
  | RecvExited => 0
  | RecvPoll => 1
  | RecvLines => 2 + count_nl (buffer s)
  end.

Definition sender_steps_left (s : state) : nat :=
  match sender s with
  | SendExited => 0
  | SendPoll => 1
  | SendSleep _ => 2
  | SendClear => 3
  end.

(** How often a schedule lets each thread move. *)
Fixpoint receiver_events (schedule : list event) : nat :=
  match schedule with
  | [] => 0
  | Receiver _ :: rest => S (receiver_events rest)
  | _ :: rest => receiver_events rest
  end.

Fixpoint sender_events (schedule : list event) : nat :=
  match schedule with
  | [] => 0
  | Sender _ :: rest => S (sender_events rest)
  | _ :: rest => sender_events rest
  end.

(** The six frames [random_choose_cmd] can return. *)
Definition command_frames : list string :=
  ["LEFT:1.00" +:+ nl; "RIGHT:1.00" +:+ nl; "JUMP:1.00" +:+ nl;
   "PICKUP" +:+ nl; "DROP" +:+ nl; "SHOOT" +:+ nl].

(** What a session may put on the wire: an image request, one of the six
    frames, or the command that was pending when the session began. *)
Definition wire_ok (next_command0 : option string) (data : list Byte.byte) : Prop :=
  data = GET_IMAGE
  \/ exists cmd,
       (In cmd command_frames \/ next_command0 = Some cmd) /\ encode_ascii cmd = Ok data.

(** The sign bit of a float. *)
Definition sign_bit (x : pyfloat) : bool :=
  match x with
  | FNan => false
  | FInf neg => neg
  | FFin neg _ _ => neg
  end.

(** What [build] returns once one more token has been appended: the
    token alone on an empty builder, otherwise the old string, a
    semicolon and the token. *)
Definition joined (self : AICommandBuilder.t) (tok : string) : string :=
  match self with
  | [] => tok
  | _ => AICommandBuilder.build self +:+ ";" +:+ tok
  end.

(** ** Further scenarios *)

(** The image of the scenarios, once decoded. *)
Definition decoded_image : @Image Frames.externals := pixel_gif.

Definition env_no_save : line_env := {| request_ok := true; cmd_type := 2; save_ok := false |}.

(** A session stopped by an ended game, with both threads still to notice. *)
Definition stopped : state :=
  step (after_chunk (ended_frame +:+ nl) []) (Receiver env_jump).

(** A session that has two frames in its buffer when Ctrl+C arrives. *)
Definition interrupted_with_backlog : state :=
  step (after_chunk (active_frame +:+ nl +:+ active_frame +:+ nl) (image ++ image)) Sigint.

(** A session whose sender has transmitted the pending command but not
    yet emptied the slot, while the receiver is about to handle a frame. *)
Definition between_send_and_clear : state :=
  run [Receiver env_jump; Sender true]
    (handle_client false (Some ("LEFT:1.00" +:+ nl))
       (Data (bytes (active_frame +:+ nl)) :: image)).

(** A line of four thousand opening brackets. *)
Definition deep_line : string := string_of_list_ascii (repeat "["%char 4000).

(** * Properties *)

(** ** The command builder *)

Lemma amount_ok_spec amount :
  AICommandBuilder.amount_ok amount = true <-> in_unit_interval amount.
Proof.
  unfold AICommandBuilder.amount_ok, in_unit_interval.
  destruct amount as [|neg|neg m e]; simpl.
  - split; [discriminate | intros (q & E & _); discriminate].
  - destruct neg; simpl; (split; [discriminate | intros (q & E & _); discriminate]).
  - rewrite andb_true_iff, !Z.leb_le.
    destruct (Z.leb_spec 0 e) as [He|He].
    + rewrite Z.min_l, Z.min_r by lia.
      rewrite !Z.sub_0_r, Z.pow_0_r.
      split.
      * intros [H0 H1]. eexists; split; [reflexivity|].
        unfold Qle; simpl. lia.
      * intros (q & E & H0 & H1). injection E as <-.
        unfold Qle in *; simpl in *. lia.
    + rewrite Z.min_r, Z.min_l by lia.
      rewrite Z.sub_diag, Z.pow_0_r, Z.sub_0_l.
      assert (Hp : (0 < 2 ^ (- e))%Z) by (apply Z.pow_pos_nonneg; lia).
      split.
      * intros [H0 H1]. eexists; split; [reflexivity|].
        unfold Qle; simpl. rewrite Z2Pos.id by lia. lia.
      * intros (q & E & H0 & H1). injection E as <-.
        unfold Qle in *; simpl in *. rewrite Z2Pos.id in * by lia. lia.
Qed.

Lemma amount_ok_false amount :
  ~ in_unit_interval amount -> AICommandBuilder.amount_ok amount = false.
Proof.
  intros Hout. destruct (AICommandBuilder.amount_ok amount) eqn:E; [|reflexivity].
  apply amount_ok_spec in E. contradiction.
Qed.

(** ** Lines *)

Lemma split_nl_line line rest :
  has_newline line = false ->
  split_nl (line +:+ String newline rest) = Some (line, rest).
Proof.
  induction line as [|c line IH]; simpl; intros Hnl.
  - reflexivity.
  - apply orb_false_iff in Hnl as [Hc Hline].
    rewrite Hc, (IH Hline). reflexivity.
Qed.

Lemma blank_lstrip line : blank line = true -> lstrip line = "".
Proof.
  unfold blank. induction line as [|c line IH]; simpl; [reflexivity|].
  intros Hb. apply andb_true_iff in Hb as [Hc Hline].
  rewrite Hc. auto.
Qed.

Lemma blank_strip line : blank line = true -> strip line = "".
Proof. intros Hb. unfold strip. rewrite (blank_lstrip _ Hb). reflexivity. Qed.

(** ** The session *)

Section Properties.

Context `{Externals}.


(** C6: an amount in [[0, 1]] is accepted by [left], [right] and [jump],
    which append their token; any other amount (below 0, above 1, an
    infinity or NaN) fails the assertion of all three, and the builder
    is left as it was. *)
Theorem amount_checked_at_construction (self : AICommandBuilder.t) (amount : pyfloat) :
  (in_unit_interval amount ->
     AICommandBuilder.left self amount = Ok (self ++ ["LEFT:" +:+ format_2f amount])
     /\ AICommandBuilder.right self amount = Ok (self ++ ["RIGHT:" +:+ format_2f amount])
     /\ AICommandBuilder.jump self amount = Ok (self ++ ["JUMP:" +:+ format_2f amount]))
  /\ (~ in_unit_interval amount ->
        raises (AICommandBuilder.left self amount)
        /\ raises (AICommandBuilder.right self amount)
        /\ raises (AICommandBuilder.jump self amount)
        /\ commands_after self (AICommandBuilder.left self amount) = self
        /\ commands_after self (AICommandBuilder.right self amount) = self
        /\ commands_after self (AICommandBuilder.jump self amount) = self).
Proof.
  unfold AICommandBuilder.left, AICommandBuilder.right, AICommandBuilder.jump.
  split.
  - intros Hin. apply amount_ok_spec in Hin. rewrite Hin. auto.
  - intros Hout. apply amount_ok_false in Hout. rewrite Hout.
    unfold raises. simpl. eauto 10.
Qed.

(** C3 (as the code has it): a session starts with a snapshot of two
    entries, [isDead] false and [numActivePlayers] 0; [hasWeapon],
    [numWeapons] and [gameEnded] are not in it, and reading one of them
    raises [KeyError]. *)
Theorem initial_snapshot_lacks_three_fields
    (shutdown0 : bool) (next_command0 : option string) (peer : list arrival) :
  let snapshot := shared_state (handle_client shutdown0 next_command0 peer) in
  snapshot !! "isDead" = Some (VBool false)
  /\ snapshot !! "numActivePlayers" = Some (VInt 0)
  /\ snapshot !! "hasWeapon" = None
  /\ snapshot !! "numWeapons" = None
  /\ snapshot !! "gameEnded" = None
  /\ dict_getitem snapshot "gameEnded" = Raise (KeyError "gameEnded")
  /\ size snapshot = 2%nat.
Proof.
  repeat split.
Qed.

Lemma handle_state_object state_str d (st : gmap string pyval) :
  json_loads state_str = Ok (VDict d) ->
  (frame_printable d = true
   /\ exists upd,
        handle_state state_str st = Ok upd
        /\ has_game_ended upd
           = truthy (dict_get d "gameEnded" (VBool false))
             || truthy (dict_get d "isDead" (VBool false))
        /\ new_shared_state upd
           = <["gameEnded" := dict_get d "gameEnded" (VBool false)]>
               (<["numWeapons" := dict_get d "numWeapons" (VInt 0)]>
                  (<["hasWeapon" := dict_get d "hasWeapon" (VBool false)]>
                     (<["numActivePlayers" := dict_get d "numActivePlayers" (VInt 0)]>
                        (<["isDead" := dict_get d "isDead" (VBool false)]> st))))
        /\ printed upd
           = [Printed (MsgState (dict_get d "isDead" (VBool false))
                                (dict_get d "numActivePlayers" (VInt 0))
                                (dict_get d "hasWeapon" (VBool false))
                                (dict_get d "numWeapons" (VInt 0))
                                (dict_get d "gameEnded" (VBool false)))])
  \/ (frame_printable d = false
      /\ handle_state state_str st = Raise UnicodeEncodeError).
Proof.
  intros Hjson. unfold handle_state. rewrite Hjson. simpl.
  unfold dict_getitem, store_state.
  repeat (rewrite lookup_insert_eq || rewrite lookup_insert_ne by discriminate); simpl.
  fold (frame_printable d). destruct (frame_printable d); simpl; [left|right; auto].
  split; [reflexivity|].
  destruct (truthy (dict_get d "gameEnded" (VBool false))) eqn:Hge; simpl;
    (eexists; split; [reflexivity|]; simpl; auto).
Qed.

Lemma shared_state_after_object state_str d (st : gmap string pyval) :
  json_loads state_str = Ok (VDict d) ->
  shared_state_after state_str st = store_state d st.
Proof. intros Hjson. unfold shared_state_after. rewrite Hjson. reflexivity. Qed.

Lemma shared_state_after_raise state_str e (st : gmap string pyval) :
  json_loads state_str = Raise e -> shared_state_after state_str st = st.
Proof. intros Hjson. unfold shared_state_after. rewrite Hjson. reflexivity. Qed.

Ltac receiver_at Hpc := unfold step, recv_step; rewrite Hpc; unfold recv_poll, recv_line.

(** C10: a line that is empty or holds only whitespace is dropped from the
    buffer and nothing else happens: the step leaves the state as it was but
    for the buffer, so nothing is printed (it is not reported as a decode
    error), the snapshot stays, and no image is requested or decision made. *)
Theorem blank_line_skipped (s : state) (env : line_env) (line rest : string) :
    receiver s = RecvLines ->
    buffer s = line +:+ String newline rest ->
    has_newline line = false ->
    blank line = true ->
    step s (Receiver env) = set_buffer rest s.
Proof.
  intros Hpc Hbuf Hnl Hblank. receiver_at Hpc.
  rewrite Hbuf, (split_nl_line _ _ Hnl), (blank_strip _ Hblank). reflexivity.
Qed.

(** C7 (amended): a line that [json.loads] rejects with [JSONDecodeError]
    is skipped: the snapshot and the stop signal are as before, the
    receiver is still in its line loop with the rest of the buffer, and
    nothing was read from or written to the socket. *)
Theorem malformed_line_skipped (s : state) (env : line_env) (line rest : string) :
    receiver s = RecvLines ->
    buffer s = line +:+ String newline rest ->
    has_newline line = false ->
    json_loads (strip line) = Raise JSONDecodeError ->
    let s' := step s (Receiver env) in
    shared_state s' = shared_state s
    /\ stop_event s' = stop_event s
    /\ receiver s' = RecvLines
    /\ buffer s' = rest
    /\ inbox s' = inbox s
    /\ next_command s' = next_command s
    /\ transmitted s' = transmitted s.
Proof.
  intros Hpc Hbuf Hnl Hjson. simpl. receiver_at Hpc.
  rewrite Hbuf, (split_nl_line _ _ Hnl).
  destruct (String.eqb (strip line) ""); simpl; [auto 10|].
  unfold handle_state. rewrite Hjson. simpl.
  repeat split; auto. unfold transmitted. simpl. rewrite omap_app. simpl. apply app_nil_r.
Qed.

Lemma transmitted_emit (out : list effect) (s : state) :
  transmitted (emit out s)
  = transmitted s ++ omap sent_data out.
Proof. unfold transmitted. simpl. apply omap_app. Qed.

Lemma stop_event_step (s : state) (ev : event) :
  stop_event s = true -> stop_event (step s ev) = true.
Proof.
  intros Hstop. destruct ev as [env|send_ok|]; simpl; [| |assumption].
  - unfold recv_step, recv_poll, recv_line, recv_finally.
    repeat case_match; simpl; auto.
  - unfold send_step. repeat case_match; simpl; auto.
Qed.

Lemma receiver_exited_step (s : state) (ev : event) :
  receiver s = RecvExited -> receiver (step s ev) = RecvExited.
Proof.
  intros Hpc. destruct ev as [env|send_ok|]; simpl; [| |assumption].
  - unfold recv_step. rewrite Hpc. assumption.
  - unfold send_step. repeat case_match; simpl; auto.
Qed.

Lemma receiver_other_step (s : state) (ev : event) :
  (forall env, ev <> Receiver env) -> receiver (step s ev) = receiver s.
Proof.
  intros Hev. destruct ev as [env|send_ok|]; simpl; [destruct (Hev env); reflexivity| |reflexivity].
  unfold send_step. repeat case_match; simpl; auto.
Qed.

Lemma stopped_receiver_exits (s : state) (env : line_env) :
  stop_event s = true -> receiver s = RecvPoll ->
  receiver (step s (Receiver env)) = RecvExited.
Proof.
  intros Hstop Hpc. receiver_at Hpc. unfold keep_running. rewrite Hstop. reflexivity.
Qed.

Lemma run_app (l1 l2 : list event) (s : state) : run (l1 ++ l2) s = run l2 (run l1 s).
Proof. apply fold_left_app. Qed.

Lemma run_cons (ev : event) (l : list event) (s : state) :
  run (ev :: l) s = run l (step s ev).
Proof. reflexivity. Qed.

Lemma receiver_exited_run (schedule : list event) (s : state) :
  receiver s = RecvExited -> receiver (run schedule s) = RecvExited.
Proof.
  revert s. induction schedule as [|ev schedule IH]; intros s Hpc; [assumption|].
  rewrite run_cons. apply IH, receiver_exited_step, Hpc.
Qed.

Lemma stop_event_run (schedule : list event) (s : state) :
  stop_event s = true -> stop_event (run schedule s) = true.
Proof.
  revert s. induction schedule as [|ev schedule IH]; intros s Hpc; [assumption|].
  rewrite run_cons. apply IH, stop_event_step, Hpc.
Qed.

(** Once the stop signal is set with the receiver at the test of its outer
    loop, the receiver's next step, whenever it comes, is its last. *)
Lemma stopped_receiver_exits_run (before after : list event) (env : line_env) (s : state) :
  stop_event s = true -> receiver s = RecvPoll ->
  receiver (run (before ++ Receiver env :: after) s) = RecvExited.
Proof.
  revert s. induction before as [|ev before IH]; intros s Hstop Hpc.
  - simpl app. rewrite run_cons.
    apply receiver_exited_run, stopped_receiver_exits; assumption.
  - simpl app. rewrite run_cons. destruct ev as [env'|send_ok|].
    + apply receiver_exited_run, stopped_receiver_exits; assumption.
    + apply IH; [apply stop_event_step, Hstop|].
      rewrite receiver_other_step by discriminate. assumption.
    + apply IH; [apply stop_event_step, Hstop|]. assumption.
Qed.

(** C4: when the line is a JSON object whose [isDead] or [gameEnded] is
    [true], handling it sets the stop signal, sends nothing (no image
    request), reads nothing, leaves the pending command as it was (no
    decision), and the receiver's next step, whenever it is scheduled,
    ends the loop. *)
Theorem terminal_frame_stops_session
      (s : state) (env : line_env) (line rest : string) (d : gmap string pyval) :
    receiver s = RecvLines ->
    buffer s = line +:+ String newline rest ->
    has_newline line = false ->
    String.eqb (strip line) "" = false ->
    json_loads (strip line) = Ok (VDict d) ->
    d !! "isDead" = Some (VBool true) \/ d !! "gameEnded" = Some (VBool true) ->
    let s' := step s (Receiver env) in
    stop_event s' = true
    /\ transmitted s' = transmitted s
    /\ inbox s' = inbox s
    /\ next_command s' = next_command s
    /\ forall before env' after,
         receiver (run (before ++ Receiver env' :: after) s') = RecvExited.
Proof.
  intros Hpc Hbuf Hnl Hne Hjson Hend.
  destruct (handle_state_object (strip line) d (shared_state (set_buffer rest s)) Hjson)
    as [(_ & upd & Hupd & Hended & _ & Hprinted) | (_ & Hraise)].
  - assert (Htrue : has_game_ended upd = true).
    { rewrite Hended. unfold dict_get. destruct Hend as [-> | ->]; simpl;
        [apply orb_true_r | reflexivity]. }
    assert (Hstep : step s (Receiver env)
                    = set_receiver RecvPoll
                        (set_stop
                           (emit [Printed MsgGameEnded]
                              (emit (printed upd)
                                 (set_shared_state (new_shared_state upd)
                                    (set_buffer rest s)))))).
    { receiver_at Hpc. rewrite Hbuf, (split_nl_line _ _ Hnl). cbv zeta. rewrite Hne.
      simpl in Hupd. simpl. rewrite Hupd, Htrue. reflexivity. }
    cbv zeta. rewrite Hstep. repeat split.
    + unfold transmitted. simpl. rewrite Hprinted, !omap_app. simpl.
      rewrite !app_nil_r. reflexivity.
    + intros before env' after. apply stopped_receiver_exits_run; reflexivity.
  - assert (Hstep : step s (Receiver env)
                    = recv_finally
                        (set_shared_state
                           (shared_state_after (strip line)
                              (shared_state (set_buffer rest s)))
                           (set_buffer rest s))).
    { receiver_at Hpc. rewrite Hbuf, (split_nl_line _ _ Hnl). cbv zeta. rewrite Hne.
      simpl in Hraise. simpl. rewrite Hraise. reflexivity. }
    cbv zeta. rewrite Hstep. repeat split.
    intros before env' after. apply receiver_exited_run. reflexivity.
Qed.

Lemma read_payload_short (segs : list (list Byte.byte)) (rest : list arrival)
    (img_size : N) (data : list Byte.byte) :
  Forall (fun seg => seg <> []) segs ->
  (N.of_nat (length data + length (concat segs)) < img_size)%N ->
  interrupted rest ->
  exists r inbox',
    read_payload (map Data segs ++ rest) img_size data = (r, inbox')
    /\ (r = ClosedMidImage \/ r = ReadFailed SocketTimeout).
Proof.
  intros Hsegs. revert data.
  induction Hsegs as [|seg segs Hseg Hsegs IH]; intros data Hlen Hint.
  - simpl in *. rewrite Nat.add_0_r in Hlen.
    destruct Hint; simpl;
      (destruct (N.leb_spec img_size (N.of_nat (length data))) as [Hle|_]; [lia|]).
    + rewrite (proj2 (N.leb_le _ _)) by (simpl; lia). eauto.
    + eauto.
    + eauto.
  - simpl in Hlen. rewrite length_app in Hlen. simpl.
    destruct (N.leb_spec img_size (N.of_nat (length data))) as [Hle|_]; [lia|].
    destruct (N.leb_spec (N.of_nat (length seg)) (img_size - N.of_nat (length data)))
      as [_|Hlt]; [|lia].
    destruct seg as [|b seg]; [contradiction|].
    apply IH; [|assumption].
    rewrite length_app. lia.
Qed.

Lemma request_image_fault (send_ok : bool) (inbox : list arrival) :
  fetch_fault inbox ->
  exists inbox' out, request_image send_ok inbox = (None, inbox', out).
Proof.
  intros Hfault. unfold request_image, request_image_try.
  destruct send_ok; simpl negb; cbv iota; [|eauto].
  destruct Hfault as [(bs & rest & -> & Hlen) | [Hint | Hshort]].
  - unfold recv. rewrite (proj2 (N.leb_le _ _)) by lia.
    rewrite (proj2 (Nat.ltb_lt _ _)) by lia. eauto.
  - destruct Hint; simpl; eauto.
  - destruct Hshort as (first & segs & rest & -> & Hfirst & Hsegs & Hlen & Hint).
    unfold recv. change (N.to_nat 4) with 4%nat.
    destruct (N.leb_spec (N.of_nat (length first)) 4) as [Hle|Hgt].
    + rewrite take_ge in Hlen by lia. rewrite drop_ge in Hlen by lia.
      rewrite (proj2 (Nat.ltb_ge _ _)) by lia.
      destruct (read_payload_short segs rest (int_from_bytes_big first) [] Hsegs Hlen Hint)
        as (r & inbox' & -> & [-> | ->]); eauto.
    + rewrite length_take. rewrite Nat.min_l by lia.
      rewrite (proj2 (Nat.ltb_ge _ _)) by lia.
      change (Data (drop 4 first) :: map Data segs ++ rest)
        with (map Data (drop 4 first :: segs) ++ rest).
      destruct (read_payload_short (drop 4 first :: segs) rest
                  (int_from_bytes_big (take 4 first)) []) as (r & inbox' & -> & [-> | ->]);
        eauto.
      * constructor; [|assumption].
        intros Hnil. apply (f_equal length) in Hnil. rewrite length_drop in Hnil.
        simpl in Hnil. lia.
      * simpl. rewrite length_app. assumption.
Qed.

(** C8: when the line is a state frame that does not end the game and the
    image fetch meets a short length prefix, a connection closed before the
    announced bytes have arrived, or a timeout, [request_image] returns
    [None] and the step leaves the stop signal and the pending command as
    they were, with the receiver still in its line loop. *)
Theorem failed_fetch_skips_tick
      (s : state) (env : line_env) (line rest : string) (upd : state_update) :
    receiver s = RecvLines ->
    buffer s = line +:+ String newline rest ->
    has_newline line = false ->
    String.eqb (strip line) "" = false ->
    handle_state (strip line) (shared_state s) = Ok upd ->
    has_game_ended upd = false ->
    fetch_fault (inbox s) ->
    (request_image (request_ok env) (inbox s)).1.1 = None
    /\ let s' := step s (Receiver env) in
       stop_event s' = stop_event s
       /\ next_command s' = next_command s
       /\ receiver s' = RecvLines
       /\ shared_state s' = new_shared_state upd.
Proof.
  intros Hpc Hbuf Hnl Hne Hupd Hended Hfault.
  destruct (request_image_fault (request_ok env) _ Hfault) as (inbox' & out & Hreq).
  split; [rewrite Hreq; reflexivity|].
  cbv zeta. receiver_at Hpc. rewrite Hbuf, (split_nl_line _ _ Hnl). cbv zeta. rewrite Hne.
  simpl. rewrite Hupd, Hended. simpl. rewrite Hreq. simpl. auto.
Qed.


Lemma handle_state_prints_only (state_str : string) (st : gmap string pyval)
    (upd : state_update) :
  handle_state state_str st = Ok upd -> omap sent_data (printed upd) = [].
Proof.
  intros Hupd.
  destruct (json_loads state_str) as [v|e] eqn:Hjson;
    [|unfold handle_state in Hupd; rewrite Hjson in Hupd; discriminate].
  destruct v as [| | | | | |d];
    try (unfold handle_state in Hupd; rewrite Hjson in Hupd; discriminate).
  destruct (handle_state_object state_str d st Hjson)
    as [(_ & upd' & Hupd' & _ & _ & Hprinted) | (_ & Hraise)]; [|congruence].
  rewrite Hupd in Hupd'. injection Hupd' as <-. rewrite Hprinted. reflexivity.
Qed.

Lemma request_image_some (send_ok : bool) (inbox inbox' : list arrival)
    (img : Image) (out : list effect) :
  request_image send_ok inbox = (Some img, inbox', out) ->
  send_ok = true /\ out = [Sent GET_IMAGE].
Proof.
  unfold request_image, request_image_try.
  destruct send_ok; simpl negb; cbv iota; [|discriminate].
  destruct (recv 4 inbox) as [[length_bytes|e] inbox1]; [|discriminate].
  destruct (length length_bytes <? 4)%nat; [discriminate|].
  destruct (read_payload inbox1 (int_from_bytes_big length_bytes) []) as [[data| |e] inbox2];
    [|discriminate|discriminate].
  destruct (image_open data) as [img'|e]; [|discriminate].
  intros [= _ _ <-]. auto.
Qed.

Lemma random_choose_cmd_frame (c : Z) :
  exists cmd data,
    random_choose_cmd c = Ok cmd /\ pending (Some cmd) = Some cmd /\ encode_ascii cmd = Ok data.
Proof.
  unfold random_choose_cmd.
  destruct (c =? 0)%Z; [|destruct (c =? 1)%Z; [|destruct (c =? 2)%Z;
    [|destruct (c =? 3)%Z; [|destruct (c =? 4)%Z]]]];
    (eexists; eexists; split; [reflexivity|split; reflexivity]).
Qed.

Lemma writes_step (env : line_env) (s : state) (cmd : string) :
  writes env s cmd ->
  exists line rest upd img inbox',
    split_nl (buffer s) = Some (line, rest)
    /\ handle_state (strip line) (shared_state s) = Ok upd
    /\ request_image true (inbox s) = (Some img, inbox', [Sent GET_IMAGE])
    /\ ai_image_analyzer img (cmd_type env) = Ok cmd
    /\ step s (Receiver env) = decided rest upd inbox' cmd s.
Proof.
  intros (Hpc & line & rest & upd & img & inbox' & out
          & Hsplit & Hne & Hupd & Hended & Hreq & Hcmd & Hsave).
  destruct (request_image_some _ _ _ _ _ Hreq) as [Hok ->].
  exists line, rest, upd, img, inbox'. rewrite Hok in Hreq.
  repeat (split; [assumption|]).
  receiver_at Hpc. rewrite Hsplit. cbv zeta. rewrite Hne.
  simpl. rewrite Hupd, Hended. simpl. rewrite Hok, Hreq, Hcmd, Hsave. reflexivity.
Qed.


(** C1 (amended): a read that returns no bytes while neither the stop signal
    nor the shutdown flag is set changes nothing but the position in the
    socket: the stop signal stays clear and the receiver is at the test of
    its outer loop again, after any number of such reads in a row. *)
Theorem empty_reads_keep_receiver_running
      (s : state) (envs : list line_env) (rest : list arrival) :
    receiver s = RecvPoll ->
    keep_running s = true ->
    inbox s = repeat (Data []) (length envs) ++ rest ->
    let s' := run (map Receiver envs) s in
    s' = set_inbox rest s
    /\ stop_event s' = false
    /\ receiver s' = RecvPoll.
Proof.
  intros Hpc Hrun Hin.
  assert (Hs' : run (map Receiver envs) s = set_inbox rest s).
  { revert s Hpc Hrun Hin. induction envs as [|env envs IH]; intros s Hpc Hrun Hin.
    - simpl in *. destruct s; simpl in *; subst; reflexivity.
    - simpl map. rewrite run_cons.
      assert (Hstep : step s (Receiver env)
                      = set_inbox (repeat (Data []) (length envs) ++ rest) s).
      { receiver_at Hpc. rewrite Hrun, Hin. reflexivity. }
      rewrite Hstep. rewrite IH; auto. }
  cbv zeta. rewrite Hs'. simpl. repeat split; [|assumption].
  unfold keep_running in Hrun. apply andb_true_iff in Hrun as [Hstop _].
  apply negb_true_iff in Hstop. assumption.
Qed.


End Properties.

(** The calls of the specification's validation test: -0.1 and 1.1 are
    refused, 0.0 and 1.0 are accepted. *)
Lemma amount_checked_at_construction_witness :
  (AICommandBuilder.left [] f0_0 = Ok ["LEFT:0.00"]
   /\ AICommandBuilder.right [] f0_0 = Ok ["RIGHT:0.00"]
   /\ AICommandBuilder.jump [] f0_0 = Ok ["JUMP:0.00"])
  /\ (AICommandBuilder.left [] f1_0 = Ok ["LEFT:1.00"]
      /\ AICommandBuilder.right [] f1_0 = Ok ["RIGHT:1.00"]
      /\ AICommandBuilder.jump [] f1_0 = Ok ["JUMP:1.00"])
  /\ raises (AICommandBuilder.left ["SHOOT"] f_minus_0_1)
  /\ commands_after ["SHOOT"] (AICommandBuilder.jump ["SHOOT"] f1_1) = ["SHOOT"].
Proof.
  split; [|split; [|split]].
  - apply (proj1 (amount_checked_at_construction [] f0_0)).
    eexists; split; [reflexivity|]. split; vm_compute; discriminate.
  - apply (proj1 (amount_checked_at_construction [] f1_0)).
    eexists; split; [reflexivity|]. split; vm_compute; discriminate.
  - apply (proj2 (amount_checked_at_construction ["SHOOT"] f_minus_0_1)).
    intros (q & E & H0 & _). injection E as <-. vm_compute in H0. apply H0. reflexivity.
  - apply (proj2 (amount_checked_at_construction ["SHOOT"] f1_1)).
    intros (q & E & _ & H1). injection E as <-. vm_compute in H1. apply H1. reflexivity.
Defined.

(** ** The session on concrete frames *)

Lemma terminal_frame_stops_session_witness :
  stop_event (step (after_chunk (ended_frame +:+ nl) image) (Receiver env_jump)) = true.
Proof.
  refine (proj1 (terminal_frame_stops_session
                   (after_chunk (ended_frame +:+ nl) image) env_jump ended_frame ""
                   (<["gameEnded" := VBool true]> ∅) _ _ _ _ _ _)).
  - reflexivity.
  - reflexivity.
  - reflexivity.
  - reflexivity.
  - vm_compute. reflexivity.
  - right. reflexivity.
Defined.

Lemma malformed_line_skipped_witness :
  let s := after_chunk ("{oops" +:+ nl +:+ ended_frame +:+ nl) [] in
  shared_state (step s (Receiver env_jump)) = shared_state s.
Proof.
  refine (proj1 (malformed_line_skipped
                   (after_chunk ("{oops" +:+ nl +:+ ended_frame +:+ nl) []) env_jump
                   "{oops" (ended_frame +:+ nl) _ _ _ _)).
  - reflexivity.
  - reflexivity.
  - reflexivity.
  - vm_compute. reflexivity.
Defined.

(** C7, as stated, fails on a line that does not decode for another
    reason than its syntax: on four thousand opening brackets the decoder
    raises [RecursionError], which the [except] clause does not catch; the
    stop signal is set and the receiver has left its loop. *)
Lemma deep_nesting_counterexample :
  let s := after_chunk (deep_line +:+ nl) [] in
  (receiver s = RecvLines /\ stop_event s = false
   /\ buffer s = deep_line +:+ String newline ""
   /\ json_loads (strip deep_line) = Raise RecursionError)
  /\ stop_event (step s (Receiver env_jump)) = true
  /\ receiver (step s (Receiver env_jump)) = RecvExited
  /\ ~ failed_decode_is_skipped.
Proof.
  cbv zeta.
  assert (Hpc : receiver (after_chunk (deep_line +:+ nl) []) = RecvLines)
    by (vm_compute; reflexivity).
  assert (Hbuf : buffer (after_chunk (deep_line +:+ nl) []) = deep_line +:+ String newline "")
    by (vm_compute; reflexivity).
  assert (Hnl : has_newline deep_line = false) by (vm_compute; reflexivity).
  assert (Hjson : json_loads (strip deep_line) = Raise RecursionError)
    by (vm_compute; reflexivity).
  assert (Hstop : stop_event (step (after_chunk (deep_line +:+ nl) []) (Receiver env_jump))
                  = true) by (vm_compute; reflexivity).
  split; [split; [exact Hpc|split; [vm_compute; reflexivity|split; [exact Hbuf|exact Hjson]]]|].
  split; [exact Hstop|]. split; [vm_compute; reflexivity|].
  intros Hclaim.
  destruct (Hclaim _ env_jump _ _ _ Hpc Hbuf Hnl Hjson) as (_ & Hsame & _).
  rewrite Hstop in Hsame. vm_compute in Hsame. discriminate Hsame.
Qed.

Lemma blank_line_skipped_witness :
  let s := after_chunk ("  " +:+ carriage_return +:+ nl +:+ active_frame +:+ nl) image in
  step s (Receiver env_jump) = set_buffer (active_frame +:+ nl) s.
Proof.
  apply (blank_line_skipped
           (after_chunk ("  " +:+ carriage_return +:+ nl +:+ active_frame +:+ nl) image)
           env_jump ("  " +:+ carriage_return) (active_frame +:+ nl)).
  - reflexivity.
  - reflexivity.
  - reflexivity.
  - reflexivity.
Defined.

Lemma failed_fetch_skips_tick_witness :
  (request_image true cut_image).1.1 = None.
Proof.
  refine (proj1 (failed_fetch_skips_tick
                   (after_chunk (active_frame +:+ nl) cut_image) env_jump
                   active_frame "" active_update _ _ _ _ _ _ _)).
  - reflexivity.
  - reflexivity.
  - reflexivity.
  - reflexivity.
  - vm_compute. reflexivity.
  - reflexivity.
  - right. right.
    exists ([Byte.x00; Byte.x00; Byte.x00; Byte.x23] ++ take 6 pixel_gif),
      [take 13 (drop 6 pixel_gif)], [Data []].
    split; [reflexivity|]. split; [simpl; lia|].
    split; [repeat constructor; discriminate|].
    split; [reflexivity|constructor].
Defined.



Lemma empty_reads_keep_receiver_running_witness :
  let s := handle_client false None [Data []; Data []; Data (bytes (ended_frame +:+ nl))] in
  run [Receiver env_jump; Receiver env_left] s
  = set_inbox [Data (bytes (ended_frame +:+ nl))] s.
Proof.
  refine (proj1 (empty_reads_keep_receiver_running
                   (handle_client false None
                      [Data []; Data []; Data (bytes (ended_frame +:+ nl))])
                   [env_jump; env_left] [Data (bytes (ended_frame +:+ nl))] _ _ _)).
  - reflexivity.
  - reflexivity.
  - reflexivity.
Defined.


(** C1, as stated, fails on a session whose peer has closed: the read
    returns no bytes, the stop signal stays clear and the receiver is
    back at its loop test. *)
Lemma empty_read_counterexample :
  let s := handle_client false None [Data []] in
  (receiver s = RecvPoll /\ keep_running s = true)
  /\ stop_event (step s (Receiver env_jump)) = false
  /\ receiver (step s (Receiver env_jump)) = RecvPoll
  /\ ~ empty_read_stops_receiver.
Proof.
  repeat split.
  intros Hclaim.
  destruct (Hclaim (handle_client false None [Data []]) env_jump [] eq_refl eq_refl eq_refl)
    as [Hstop _].
  discriminate Hstop.
Qed.


(** * Further properties of the code *)

(** ** Strings, numbers and the command builder *)

Lemma split_nl_none (b : string) : has_newline b = false -> split_nl b = None.
Proof.
  induction b as [|c b IH]; simpl; [reflexivity|].
  intros Hnl. apply orb_false_iff in Hnl as [-> Hb]. rewrite (IH Hb). reflexivity.
Qed.

Lemma decode_ascii_ignore_app (c1 c2 : list Byte.byte) :
  decode_ascii_ignore (c1 ++ c2) = decode_ascii_ignore c1 +:+ decode_ascii_ignore c2.
Proof.
  induction c1 as [|b c1 IH]; simpl; [reflexivity|].
  destruct (Byte.to_N b <? 128)%N; simpl; rewrite IH; reflexivity.
Qed.

Lemma string_app_assoc (a b c : string) : (a +:+ b) +:+ c = a +:+ (b +:+ c).
Proof.
  induction a as [|x a IH]; [reflexivity|].
  change (String x ((a +:+ b) +:+ c) = String x (a +:+ (b +:+ c))). f_equal. exact IH.
Qed.

Lemma round_half_even_near (num den : Z) :
  (0 <= num)%Z -> (0 < den)%Z ->
  let k := round_half_even num den in
  (0 <= k)%Z /\ ((2 * k - 1) * den <= 2 * num)%Z /\ (2 * num <= (2 * k + 1) * den)%Z.
Proof.
  intros Hnum Hden. unfold round_half_even.
  pose proof (Z.div_mod num den ltac:(lia)) as Hdm.
  pose proof (Z.mod_pos_bound num den Hden) as Hmod.
  pose proof (Z.div_pos num den Hnum Hden) as Hq.
  cbv zeta.
  destruct (Z.ltb_spec (2 * (num mod den)) den);
    [|destruct (Z.ltb_spec den (2 * (num mod den))); [|destruct (Z.even (num / den))]];
    nia.
Qed.

(** For an amount between 0 and 1, [f"{amount:.2f}"] prints a number of
    hundredths [k] between 0 and 100 that is within half a hundredth of
    the amount, as units, a point and two digits; a minus sign comes
    first exactly when the amount has its sign bit set (it is [-0.0]). *)
Theorem format_2f_unit_interval (amount : pyfloat) (q : Q) :
  float_val amount = Some q ->
  (0 <= q)%Q -> (q <= 1)%Q ->
  exists k : Z,
    (0 <= k <= 100)%Z
    /\ format_2f amount
       = (if sign_bit amount then "-" else "")
         +:+ decimal (k / 100) +:+ "." +:+ two_digits (k mod 100)
    /\ (inject_Z (2 * k - 1) <= 200 * q)%Q
    /\ (200 * q <= inject_Z (2 * k + 1))%Q.
Proof.
  destruct amount as [|neg|neg m e]; simpl; try discriminate.
  intros [= <-]. destruct (Z.leb_spec 0 e) as [He|He].
  - intros H0 H1. unfold Qle in H0, H1. simpl in H0, H1.
    assert (Hp : (0 < 2 ^ e)%Z) by (apply Z.pow_pos_nonneg; lia).
    exists (Z.of_N m * 2 ^ e * 100)%Z.
    assert (Hm : (0 <= Z.of_N m)%Z) by lia.
    unfold signed in *. destruct neg.
    + assert (Hz : (Z.of_N m * 2 ^ e = 0)%Z) by nia.
      rewrite Hz. split; [lia|]. split; [reflexivity|].
      unfold Qle; simpl. split; nia.
    + split; [nia|]. split; [reflexivity|]. unfold Qle; simpl. split; nia.
  - intros H0 H1. unfold Qle in H0, H1. simpl in H0, H1.
    assert (Hp : (0 < 2 ^ (- e))%Z) by (apply Z.pow_pos_nonneg; lia).
    rewrite Z2Pos.id in H1 by lia.
    assert (Hm : (0 <= Z.of_N m)%Z) by lia.
    destruct (round_half_even_near (Z.of_N m * 100) (2 ^ (- e)) ltac:(lia) Hp)
      as (Hk0 & Hlo & Hhi).
    exists (round_half_even (Z.of_N m * 100) (2 ^ (- e))).
    unfold signed in *.
    split; [split; [assumption|destruct neg; nia]|]. split; [reflexivity|].
    unfold Qle; simpl. rewrite Pos.mul_1_l, Z2Pos.id by lia. destruct neg; split; nia.
Qed.

Lemma concat_snoc (sep : string) (l : list string) (tok : string) :
  l <> [] -> String.concat sep (l ++ [tok]) = String.concat sep l +:+ sep +:+ tok.
Proof.
  induction l as [|x l IH]; [contradiction|]. intros _.
  destruct l as [|y l].
  - reflexivity.
  - change (x +:+ sep +:+ String.concat sep ((y :: l) ++ [tok])
            = (x +:+ sep +:+ String.concat sep (y :: l)) +:+ sep +:+ tok).
    rewrite IH by discriminate. rewrite !string_app_assoc. reflexivity.
Qed.

Lemma build_snoc (self : AICommandBuilder.t) (tok : string) :
  AICommandBuilder.build (self ++ [tok]) = joined self tok.
Proof.
  unfold AICommandBuilder.build, joined. destruct self as [|x self]; [reflexivity|].
  apply concat_snoc. discriminate.
Qed.

(** Each builder call adds its token at the end: [build] afterwards is the
    token alone when the builder was empty, and otherwise what [build]
    gave before, a semicolon and the token; after [clear] it is the empty
    string. *)
Theorem build_joins_in_call_order (self : AICommandBuilder.t) :
  AICommandBuilder.build (AICommandBuilder.pickup self) = joined self "PICKUP"
  /\ AICommandBuilder.build (AICommandBuilder.drop self) = joined self "DROP"
  /\ AICommandBuilder.build (AICommandBuilder.shoot self) = joined self "SHOOT"
  /\ AICommandBuilder.build (AICommandBuilder.clear self) = ""
  /\ forall amount self',
       (AICommandBuilder.left self amount = Ok self' ->
        AICommandBuilder.build self' = joined self ("LEFT:" +:+ format_2f amount))
       /\ (AICommandBuilder.right self amount = Ok self' ->
           AICommandBuilder.build self' = joined self ("RIGHT:" +:+ format_2f amount))
       /\ (AICommandBuilder.jump self amount = Ok self' ->
           AICommandBuilder.build self' = joined self ("JUMP:" +:+ format_2f amount)).
Proof.
  unfold AICommandBuilder.pickup, AICommandBuilder.drop, AICommandBuilder.shoot.
  rewrite !build_snoc. do 4 (split; [reflexivity|]).
  intros amount self'.
  unfold AICommandBuilder.left, AICommandBuilder.right, AICommandBuilder.jump.
  destruct (AICommandBuilder.amount_ok amount);
    repeat split; intros [= <-]; apply build_snoc.
Qed.

(** ** The session *)

Section FurtherProperties.

Context `{Externals}.

Ltac receiver_at Hpc := unfold step, recv_step; rewrite Hpc; unfold recv_poll, recv_line.

(** When the line decodes to an object, the snapshot holds afterwards,
    whether [handle_state] returns or its [print] raises, each of the five
    fields with the frame's value, or the default where the frame has
    none, and every other key as before.  [handle_state] returns when the
    five values can be printed, with the game counted as ended exactly
    when [gameEnded] or [isDead] is truthy; otherwise the [print] raises
    [UnicodeEncodeError]. *)
Theorem handle_state_fields (state_str : string) (d st : gmap string pyval) :
  json_loads state_str = Ok (VDict d) ->
  let stored := shared_state_after state_str st in
  Forall (fun '(key, dflt) => stored !! key = Some (dict_get d key dflt)) snapshot_fields
  /\ (forall key, key ∉ snapshot_fields.*1 -> stored !! key = st !! key)
  /\ (if frame_printable d
      then exists upd,
             handle_state state_str st = Ok upd
             /\ new_shared_state upd = stored
             /\ has_game_ended upd
                = truthy (dict_get d "gameEnded" (VBool false))
                  || truthy (dict_get d "isDead" (VBool false))
      else handle_state state_str st = Raise UnicodeEncodeError).
Proof.
  intros Hjson. cbv zeta. rewrite (shared_state_after_object _ _ _ Hjson).
  split; [|split].
  - unfold store_state. repeat constructor;
      repeat (rewrite lookup_insert_eq || rewrite lookup_insert_ne by discriminate);
      reflexivity.
  - intros key Hkey. simpl in Hkey. unfold store_state.
    repeat (rewrite lookup_insert_ne; [|intros <-; apply Hkey; set_solver]).
    reflexivity.
  - destruct (handle_state_object state_str d st Hjson)
      as [(-> & upd & Hupd & Hended & Hnew & _) | (-> & Hraise)]; [|assumption].
    exists upd. split; [assumption|]. split; [exact Hnew|assumption].
Qed.

(** A line that is valid JSON but not an object (a number, a string, a
    list, [null], [true]) ends the receiver: [state_json.get] raises
    [AttributeError], which the [except] clause does not catch, so the
    [finally] clause sets the stop signal and the loop is left, with the
    snapshot and the pending command untouched and nothing printed. *)
Theorem non_object_frame_ends_session
    (s : state) (env : line_env) (line rest : string) (v : pyval) :
  receiver s = RecvLines ->
  buffer s = line +:+ String newline rest ->
  has_newline line = false ->
  String.eqb (strip line) "" = false ->
  json_loads (strip line) = Ok v ->
  (forall d, v <> VDict d) ->
  let s' := step s (Receiver env) in
  stop_event s' = true
  /\ receiver s' = RecvExited
  /\ shared_state s' = shared_state s
  /\ next_command s' = next_command s
  /\ effects s' = effects s.
Proof.
  intros Hpc Hbuf Hnl Hne Hjson Hv. cbv zeta. receiver_at Hpc.
  rewrite Hbuf, (split_nl_line _ _ Hnl). cbv zeta. rewrite Hne.
  unfold handle_state, shared_state_after. simpl. rewrite Hjson. simpl.
  destruct v as [| | | | | |d]; try (repeat split; reflexivity).
  destruct (Hv d). reflexivity.
Qed.

Lemma split_nl_count (b line rest : string) :
  split_nl b = Some (line, rest) -> count_nl b = S (count_nl rest).
Proof.
  revert line. induction b as [|c b IH]; intros line; simpl; [discriminate|].
  destruct (Ascii.eqb c newline).
  - intros [= _ <-]. reflexivity.
  - destruct (split_nl b) as [[l r]|]; [|discriminate].
    intros [= _ <-]. simpl. apply (IH l). reflexivity.
Qed.

Lemma halting_step (s : state) (ev : event) :
  halting s = true -> halting (step s ev) = true.
Proof.
  unfold halting. intros Hh. destruct ev as [env|send_ok|]; simpl.
  - unfold recv_step, recv_poll, recv_line, recv_finally.
    repeat case_match; simpl; auto using orb_true_r.
  - unfold send_step. repeat case_match; simpl; auto.
  - apply orb_true_r.
Qed.

Lemma halting_keep_running (s : state) : halting s = true -> keep_running s = false.
Proof.
  unfold halting, keep_running. destruct (stop_event s), (shutdown s); simpl; congruence.
Qed.

Lemma sender_receiver_step (s : state) (env : line_env) :
  sender (step s (Receiver env)) = sender s.
Proof.
  unfold step, recv_step, recv_poll, recv_line, recv_finally.
  repeat case_match; reflexivity.
Qed.

Lemma receiver_sender_step (s : state) (send_ok : bool) :
  receiver (step s (Sender send_ok)) = receiver s
  /\ buffer (step s (Sender send_ok)) = buffer s.
Proof.
  unfold step, send_step. repeat case_match; split; reflexivity.
Qed.

Lemma receiver_step_left (s : state) (env : line_env) :
  halting s = true ->
  receiver_steps_left (step s (Receiver env)) <= pred (receiver_steps_left s)
  /\ sender_steps_left (step s (Receiver env)) = sender_steps_left s.
Proof.
  intros Hh. pose proof (halting_keep_running s Hh) as Hk.
  split; [|unfold sender_steps_left; rewrite sender_receiver_step; reflexivity].
  unfold step, recv_step, receiver_steps_left.
  destruct (receiver s) eqn:Hpc.
  - unfold recv_poll. rewrite Hk. simpl. lia.
  - unfold recv_line, recv_finally.
    destruct (split_nl (buffer s)) as [[line rest]|] eqn:Hsplit; [|simpl; lia].
    rewrite (split_nl_count _ _ _ Hsplit).
    destruct s; simpl in *; subst.
    repeat (case_match; simpl; try lia).
  - rewrite Hpc. lia.
Qed.

Lemma sender_step_left (s : state) (send_ok : bool) :
  halting s = true ->
  sender_steps_left (step s (Sender send_ok)) <= pred (sender_steps_left s)
  /\ receiver_steps_left (step s (Sender send_ok)) = receiver_steps_left s.
Proof.
  intros Hh. pose proof (halting_keep_running s Hh) as Hk.
  split.
  - unfold step, send_step, sender_steps_left.
    destruct (sender s) as [| |[|n]|] eqn:Hpc; rewrite ?Hk; simpl; rewrite ?Hpc; lia.
  - unfold receiver_steps_left.
    destruct (receiver_sender_step s send_ok) as [-> ->]. reflexivity.
Qed.

Lemma session_over_left (s : state) :
  receiver_steps_left s = 0 -> sender_steps_left s = 0 -> session_over s = true.
Proof.
  unfold receiver_steps_left, sender_steps_left, session_over.
  destruct (receiver s), (sender s); simpl; congruence.
Qed.

(** Once the stop signal or the shutdown flag is set, both loops end: the
    session is over after any schedule that lets the receiver move as often
    as it has lines buffered plus two (the inner loop does not look at the
    flags), and the sender up to three times. *)
Theorem loops_exit_once_flag_set (schedule : list event) (s : state) :
  halting s = true ->
  receiver_steps_left s <= receiver_events schedule ->
  sender_steps_left s <= sender_events schedule ->
  session_over (run schedule s) = true.
Proof.
  revert s. induction schedule as [|ev schedule IH]; intros s Hh Hr Hs.
  - simpl in *. apply session_over_left; lia.
  - rewrite run_cons. pose proof (halting_step s ev Hh) as Hh'.
    destruct ev as [env|send_ok|]; simpl in Hr, Hs.
    + destruct (receiver_step_left s env Hh) as [Hle Heq].
      apply IH; [assumption| |]; lia.
    + destruct (sender_step_left s send_ok Hh) as [Hle Heq].
      apply IH; [assumption| |]; lia.
    + apply IH; [assumption| |]; assumption.
Qed.

Lemma recv_delivered (n : N) (inbox inbox' : list arrival) (bs : list Byte.byte) :
  recv n inbox = (Ok bs, inbox') ->
  delivered inbox = bs ++ delivered inbox' /\ (N.of_nat (length bs) <= n)%N.
Proof.
  unfold recv. destruct inbox as [|[seg| |] rest]; try discriminate.
  destruct (N.leb_spec (N.of_nat (length seg)) n) as [Hle|Hgt].
  - intros [= <- <-]. auto.
  - intros [= <- <-]. simpl. rewrite app_assoc, take_drop. split; [reflexivity|].
    rewrite length_take. lia.
Qed.

Lemma read_payload_delivered (inbox inbox' : list arrival) (img_size : N)
    (data0 data : list Byte.byte) :
  read_payload inbox img_size data0 = (Complete data, inbox') ->
  exists more,
    data = data0 ++ more
    /\ delivered inbox = more ++ delivered inbox'
    /\ ((N.of_nat (length data0) <= img_size)%N -> N.of_nat (length data) = img_size).
Proof.
  revert data0 data. induction inbox as [|a inbox IH]; intros data0 data; simpl.
  - destruct (N.leb_spec img_size (N.of_nat (length data0))) as [Hle|Hgt]; [|discriminate].
    intros [= <- <-]. exists []. rewrite app_nil_r. repeat split. lia.
  - destruct (N.leb_spec img_size (N.of_nat (length data0))) as [Hle|Hgt].
    { intros [= <- <-]. exists []. rewrite app_nil_r. repeat split. lia. }
    destruct a as [bs| |]; try discriminate.
    destruct (N.leb_spec (N.of_nat (length bs)) (img_size - N.of_nat (length data0)))
      as [Hfit|Hmore].
    + destruct bs as [|b bs]; [discriminate|].
      intros Hrec. destruct (IH _ _ Hrec) as (more & -> & Hdel & Hlen).
      exists ((b :: bs) ++ more). split; [rewrite <- app_assoc; reflexivity|].
      split; [rewrite Hdel, <- app_assoc; reflexivity|].
      intros _. apply Hlen. rewrite length_app. lia.
    + intros [= <- <-].
      exists (take (N.to_nat (img_size - N.of_nat (length data0))) bs).
      split; [reflexivity|]. simpl. rewrite app_assoc, take_drop. split; [reflexivity|].
      intros _. rewrite length_app, length_take. lia.
Qed.

(** When [request_image] returns an image, the bytes it has taken from the
    socket are exactly a prefix of four bytes and the number of bytes the
    prefix announces, the image was opened from those, and everything
    behind them is still in the socket. *)
Theorem request_image_frames_payload (send_ok : bool) (inbox inbox' : list arrival)
    (img : Image) (out : list effect) :
  request_image send_ok inbox = (Some img, inbox', out) ->
  exists length_bytes data,
    length length_bytes = 4%nat
    /\ N.of_nat (length data) = int_from_bytes_big length_bytes
    /\ image_open data = Ok img
    /\ delivered inbox = length_bytes ++ data ++ delivered inbox'.
Proof.
  unfold request_image, request_image_try.
  destruct send_ok; simpl negb; cbv iota; [|discriminate].
  destruct (recv 4 inbox) as [[length_bytes|e] inbox1] eqn:Hrecv; [|discriminate].
  destruct (Nat.ltb_spec (length length_bytes) 4) as [Hlt|Hge]; [discriminate|].
  destruct (read_payload inbox1 (int_from_bytes_big length_bytes) [])
    as [[data| |e] inbox2] eqn:Hread; [|discriminate|discriminate].
  destruct (image_open data) as [img'|e] eqn:Hopen; [|discriminate].
  intros [= <- <- _].
  destruct (recv_delivered _ _ _ _ Hrecv) as [Hdel1 Hfour].
  destruct (read_payload_delivered _ _ _ _ _ Hread) as (more & -> & Hdel2 & Hlen).
  exists length_bytes, more. split; [lia|].
  split; [apply Hlen; simpl; lia|]. split; [assumption|].
  rewrite Hdel1, Hdel2. reflexivity.
Qed.

Lemma random_choose_cmd_frames (c : Z) (cmd : string) :
  random_choose_cmd c = Ok cmd -> In cmd command_frames.
Proof.
  unfold random_choose_cmd, command_frames.
  destruct (c =? 0)%Z; [|destruct (c =? 1)%Z; [|destruct (c =? 2)%Z;
    [|destruct (c =? 3)%Z; [|destruct (c =? 4)%Z]]]];
    intros [= <-]; simpl; auto 10.
Qed.

Lemma request_image_out (send_ok : bool) (inbox : list arrival) :
  omap sent_data (request_image send_ok inbox).2 = []
  \/ omap sent_data (request_image send_ok inbox).2 = [GET_IMAGE].
Proof.
  unfold request_image, request_image_try.
  destruct send_ok; simpl negb; cbv iota; [|left; reflexivity].
  destruct (recv 4 inbox) as [[length_bytes|e] inbox1]; [|right; reflexivity].
  destruct (length length_bytes <? 4)%nat; [right; reflexivity|].
  destruct (read_payload inbox1 (int_from_bytes_big length_bytes) []) as [[data| |e] inbox2];
    [|right; reflexivity|right; reflexivity].
  destruct (image_open data) as [img'|e]; right; reflexivity.
Qed.

(** A step only adds to what is on the wire: image requests, or the
    command that was in the slot. *)
Lemma step_transmits (s : state) (ev : event) :
  exists sent,
    transmitted (step s ev) = transmitted s ++ sent
    /\ Forall (fun data =>
                 data = GET_IMAGE
                 \/ exists cmd, next_command s = Some cmd /\ encode_ascii cmd = Ok data) sent.
Proof.
  assert (Hnone : exists sent,
             transmitted s = transmitted s ++ sent
             /\ Forall (fun data =>
                          data = GET_IMAGE
                          \/ exists cmd, next_command s = Some cmd /\ encode_ascii cmd = Ok data)
                  sent).
  { exists []. rewrite app_nil_r. auto. }
  destruct ev as [env|send_ok|]; simpl; [| |exact Hnone].
  - unfold recv_step. destruct (receiver s); [| |exact Hnone].
    + unfold recv_poll, recv_finally. repeat case_match; exact Hnone.
    + unfold recv_line, recv_finally.
      destruct (split_nl (buffer s)) as [[line rest]|]; [|exact Hnone].
      cbv zeta. destruct (String.eqb (strip line) ""); [exact Hnone|].
      simpl shared_state.
      destruct (handle_state (strip line) (shared_state s)) as [upd|e] eqn:Hupd.
      2:{ destruct e; try exact Hnone.
          exists []. unfold transmitted. simpl. rewrite omap_app. simpl. auto. }
      pose proof (handle_state_prints_only _ _ _ Hupd) as Hprints.
      destruct (has_game_ended upd).
      { exists []. unfold transmitted. simpl. rewrite !omap_app, Hprints. simpl.
        rewrite !app_nil_r. auto. }
      simpl. pose proof (request_image_out (request_ok env) (inbox s)) as Hout.
      destruct (request_image (request_ok env) (inbox s)) as [[img inbox'] out].
      simpl in Hout.
      assert (Hsent : exists sent,
                 omap sent_data out = sent
                 /\ Forall (fun data =>
                              data = GET_IMAGE
                              \/ exists cmd,
                                   next_command s = Some cmd /\ encode_ascii cmd = Ok data)
                      sent).
      { destruct Hout as [-> | ->]; eexists; split; try reflexivity; auto. }
      destruct Hsent as (sent & Hsent & Hall). exists sent. split; [|assumption].
      destruct img as [img|]; [destruct (ai_image_analyzer img (cmd_type env));
                               [destruct (save_ok env)|]|];
        unfold transmitted; simpl; rewrite !omap_app, Hprints, Hsent; simpl;
        rewrite ?app_nil_r; reflexivity.
  - unfold send_step. destruct (sender s) as [| |[|n]|]; try exact Hnone.
    + destruct (keep_running s); [|exact Hnone].
      destruct (next_command s) as [cmd|] eqn:Hslot; simpl; [|exact Hnone].
      destruct (String.eqb cmd ""); [exact Hnone|].
      destruct (encode_ascii cmd) as [data|e] eqn:Henc.
      * destruct send_ok.
        -- exists [data]. unfold transmitted. simpl. rewrite omap_app. split; [reflexivity|].
           constructor; [|constructor]. right. exists cmd. auto.
        -- exists []. unfold transmitted. simpl. rewrite omap_app. simpl. auto.
      * exists []. unfold transmitted. simpl. rewrite omap_app. simpl. auto.
    + destruct (keep_running s); exact Hnone.
Qed.

(** A step leaves the slot, empties it, or stores one of the six frames. *)
Lemma step_slot (s : state) (ev : event) :
  next_command (step s ev) = next_command s
  \/ next_command (step s ev) = None
  \/ exists cmd, In cmd command_frames /\ next_command (step s ev) = Some cmd.
Proof.
  destruct ev as [env|send_ok|]; simpl; [| |auto].
  - unfold recv_step. destruct (receiver s); [| |auto].
    + unfold recv_poll, recv_finally. repeat case_match; auto.
    + unfold recv_line, recv_finally.
      destruct (split_nl (buffer s)) as [[line rest]|]; [|auto].
      cbv zeta. destruct (String.eqb (strip line) ""); [auto|].
      simpl shared_state.
      destruct (handle_state (strip line) (shared_state s)) as [upd|e].
      2:{ destruct e; auto. }
      destruct (has_game_ended upd); [auto|]. simpl.
      destruct (request_image (request_ok env) (inbox s)) as [[img inbox'] out].
      destruct img as [img|]; [|auto].
      destruct (ai_image_analyzer img (cmd_type env)) as [cmd|e] eqn:Hcmd; [|auto].
      right. right. exists cmd. split; [apply (random_choose_cmd_frames _ _ Hcmd)|].
      destruct (save_ok env); reflexivity.
  - unfold send_step. repeat case_match; auto.
Qed.

(** Whatever the peer sends and however the threads are scheduled, a
    session transmits nothing but image requests, the six frames of
    [random_choose_cmd], and the command that was pending when it began. *)
Theorem only_requests_and_commands_on_wire
    (schedule : list event) (shutdown0 : bool) (next_command0 : option string)
    (peer : list arrival) (data : list Byte.byte) :
  In data (transmitted (run schedule (handle_client shutdown0 next_command0 peer))) ->
  wire_ok next_command0 data.
Proof.
  assert (Hinv : forall schedule s,
             (forall cmd, next_command s = Some cmd ->
                          In cmd command_frames \/ next_command0 = Some cmd) ->
             (forall data, In data (transmitted s) -> wire_ok next_command0 data) ->
             forall data, In data (transmitted (run schedule s)) -> wire_ok next_command0 data).
  { clear. intros schedule. induction schedule as [|ev schedule IH]; intros s Hslot Hwire.
    - exact Hwire.
    - rewrite run_cons. apply IH.
      + intros cmd Hcmd. destruct (step_slot s ev) as [Heq | [Heq | (cmd' & Hin & Heq)]];
          rewrite Heq in Hcmd.
        * auto.
        * discriminate.
        * injection Hcmd as <-. auto.
      + intros data. destruct (step_transmits s ev) as (sent & -> & Hall).
        rewrite in_app_iff. intros [Hin | Hin]; [auto|].
        rewrite Forall_forall in Hall. unfold wire_ok.
        destruct (Hall data) as [-> | (cmd & Hcmd & Henc)]; [apply list_elem_of_In, Hin|auto|].
        right. exists cmd. auto. }
  apply Hinv.
  - simpl. intros cmd ->. auto.
  - simpl. intros d [].
Qed.

(** A frame that arrives in two reads is put together: the first part,
    having no newline, stays in the buffer while the receiver goes back to
    read, and after the second read the buffer holds the decoding of both
    parts in order. *)
Theorem frame_split_over_two_reads
    (s : state) (c1 c2 : list Byte.byte) (rest : list arrival) (env1 env2 env3 : line_env) :
  receiver s = RecvPoll ->
  keep_running s = true ->
  inbox s = Data c1 :: Data c2 :: rest ->
  c1 <> [] -> c2 <> [] ->
  length c1 <= 4096 -> length c2 <= 4096 ->
  has_newline (buffer s +:+ decode_ascii_ignore c1) = false ->
  run [Receiver env1; Receiver env2; Receiver env3] s
  = set_receiver RecvLines
      (set_buffer (buffer s +:+ decode_ascii_ignore (c1 ++ c2)) (set_inbox rest s)).
Proof.
  intros Hpc Hrun Hin Hc1 Hc2 Hl1 Hl2 Hnl.
  assert (H1 : step s (Receiver env1)
               = set_receiver RecvLines
                   (set_buffer (buffer s +:+ decode_ascii_ignore c1)
                      (set_inbox (Data c2 :: rest) s))).
  { receiver_at Hpc. rewrite Hrun, Hin. unfold recv.
    rewrite (proj2 (N.leb_le _ _)) by lia.
    destruct c1; [contradiction|reflexivity]. }
  assert (H2 : step (set_receiver RecvLines
                       (set_buffer (buffer s +:+ decode_ascii_ignore c1)
                          (set_inbox (Data c2 :: rest) s))) (Receiver env2)
               = set_receiver RecvPoll
                   (set_buffer (buffer s +:+ decode_ascii_ignore c1)
                      (set_inbox (Data c2 :: rest) s))).
  { unfold step, recv_step. simpl receiver. cbv iota. unfold recv_line. simpl buffer.
    rewrite (split_nl_none _ Hnl). reflexivity. }
  assert (H3 : step (set_receiver RecvPoll
                       (set_buffer (buffer s +:+ decode_ascii_ignore c1)
                          (set_inbox (Data c2 :: rest) s))) (Receiver env3)
               = set_receiver RecvLines
                   (set_buffer (buffer s +:+ decode_ascii_ignore (c1 ++ c2))
                      (set_inbox rest s))).
  { unfold step, recv_step. simpl receiver. cbv iota. unfold recv_poll.
    change (keep_running (set_receiver RecvPoll
              (set_buffer (buffer s +:+ decode_ascii_ignore c1)
                 (set_inbox (Data c2 :: rest) s)))) with (keep_running s).
    rewrite Hrun. simpl inbox. unfold recv.
    rewrite (proj2 (N.leb_le _ _)) by lia.
    rewrite decode_ascii_ignore_app, <- string_app_assoc.
    destruct c2; [contradiction|reflexivity]. }
  rewrite run_cons, H1, run_cons, H2, run_cons, H3. reflexivity.
Qed.

(** Nothing in a session clears the stop signal or the shutdown flag, and
    a thread that has left its loop stays out, under every schedule. *)
Theorem flags_and_exits_are_final (schedule : list event) (s : state) :
  (stop_event s = true -> stop_event (run schedule s) = true)
  /\ (shutdown s = true -> shutdown (run schedule s) = true)
  /\ (receiver s = RecvExited -> receiver (run schedule s) = RecvExited)
  /\ (sender s = SendExited -> sender (run schedule s) = SendExited).
Proof.
  split; [apply stop_event_run|]. split; [|split; [apply receiver_exited_run|]].
  - revert s. induction schedule as [|ev schedule IH]; intros s Hs; [assumption|].
    rewrite run_cons. apply IH. destruct ev as [env|send_ok|]; simpl; [| |reflexivity].
    + unfold recv_step, recv_poll, recv_line, recv_finally. repeat case_match; simpl; auto.
    + unfold send_step. repeat case_match; simpl; auto.
  - revert s. induction schedule as [|ev schedule IH]; intros s Hs; [assumption|].
    rewrite run_cons. apply IH. destruct ev as [env|send_ok|].
    + rewrite sender_receiver_step. assumption.
    + simpl. unfold send_step. rewrite Hs. assumption.
    + assumption.
Qed.

(** [send_loop] transmits and then empties the slot in two statements.  A
    decision the receiver stores between the two is wiped by the second
    and is never transmitted. *)
Theorem decision_between_send_and_clear_is_lost
    (s : state) (env : line_env) (cmd : string) (send_ok : bool) :
  sender s = SendClear ->
  writes env s cmd ->
  let s' := run [Receiver env; Sender send_ok] s in
  next_command (step s (Receiver env)) = Some cmd
  /\ next_command s' = None
  /\ transmitted s' = transmitted s ++ [GET_IMAGE]
  /\ sender s' = SendSleep 10.
Proof.
  intros Hpc Hw.
  destruct (writes_step _ _ _ Hw) as (line & rest & upd & img & inbox' & _ & Hupd & _ & _ & Hstep).
  cbv zeta. rewrite run_cons, Hstep. split; [reflexivity|].
  unfold run, fold_left, step, send_step. simpl sender. rewrite Hpc.
  repeat split. unfold transmitted. simpl. rewrite !omap_app.
  rewrite (handle_state_prints_only _ _ _ Hupd). simpl. rewrite !app_nil_r. reflexivity.
Qed.

(** When the pending command cannot be encoded or [sendall] fails, the
    sender sets the stop signal and leaves its loop; nothing is
    transmitted and the command stays in the slot. *)
Theorem failed_transmission_stops_session
    (s : state) (send_ok : bool) (cmd : string) :
  sender s = SendPoll ->
  keep_running s = true ->
  pending (next_command s) = Some cmd ->
  send_ok = false \/ (exists e, encode_ascii cmd = Raise e) ->
  let s' := step s (Sender send_ok) in
  stop_event s' = true
  /\ sender s' = SendExited
  /\ next_command s' = next_command s
  /\ transmitted s' = transmitted s.
Proof.
  intros Hpc Hrun Hpend Hfail. cbv zeta. unfold step, send_step.
  rewrite Hpc, Hrun, Hpend.
  destruct (encode_ascii cmd) as [data|e] eqn:Henc.
  - destruct Hfail as [-> | [e He]]; [|discriminate].
    repeat split. unfold transmitted. simpl. rewrite omap_app. apply app_nil_r.
  - repeat split. unfold transmitted. simpl. rewrite omap_app. apply app_nil_r.
Qed.

Lemma sleep_rounds (s : state) (n : nat) (oks : list bool) :
  keep_running s = true ->
  sender s = SendSleep n ->
  length oks <= n ->
  run (map Sender oks) s = set_sender (SendSleep (n - length oks)) s.
Proof.
  revert s n. induction oks as [|ok oks IH]; intros s n Hrun Hpc Hlen.
  - simpl. rewrite Nat.sub_0_r. destruct s; simpl in *; subst; reflexivity.
  - simpl map. rewrite run_cons. simpl in Hlen. destruct n as [|n]; [lia|].
    assert (Hstep : step s (Sender ok) = set_sender (SendSleep n) s).
    { unfold step, send_step. rewrite Hpc, Hrun. reflexivity. }
    rewrite Hstep, (IH _ n); [reflexivity|assumption|reflexivity|lia].
Qed.

(** With an empty slot and no flag set, the sender goes from its loop
    test through ten rounds of sleep and is back at the test after twelve
    steps, having changed nothing. *)
Theorem idle_sender_cycle (s : state) (oks : list bool) :
  sender s = SendPoll ->
  keep_running s = true ->
  pending (next_command s) = None ->
  length oks = 12 ->
  (forall k, k <= 10 ->
     run (map Sender (take (S k) oks)) s = set_sender (SendSleep (10 - k)) s)
  /\ run (map Sender oks) s = s.
Proof.
  intros Hpc Hrun Hpend Hlen.
  destruct oks as [|ok0 oks]; [discriminate|].
  assert (Hstep : step s (Sender ok0) = set_sender (SendSleep 10) s).
  { unfold step, send_step. rewrite Hpc, Hrun, Hpend. reflexivity. }
  split.
  - intros k Hk. simpl take. simpl map. rewrite run_cons, Hstep.
    rewrite (sleep_rounds _ 10); [|exact Hrun|reflexivity|rewrite length_take; lia].
    rewrite length_take. simpl in Hlen. rewrite Nat.min_l by lia. reflexivity.
  - simpl map. rewrite run_cons, Hstep.
    replace (map Sender oks) with (map Sender (take 10 oks) ++ map Sender (drop 10 oks))
      by (rewrite <- map_app, take_drop; reflexivity).
    rewrite run_app.
    rewrite (sleep_rounds (set_sender (SendSleep 10) s) 10 (take 10 oks));
      [|exact Hrun|reflexivity|rewrite length_take; lia].
    rewrite length_take. simpl in Hlen. rewrite Nat.min_l by lia.
    destruct (drop 10 oks) as [|ok11 [|ok12 tl]] eqn:Hdrop.
    + apply (f_equal length) in Hdrop. rewrite length_drop in Hdrop. simpl in Hdrop. lia.
    + simpl. unfold send_step. simpl sender. destruct s; simpl in *; subst; reflexivity.
    + apply (f_equal length) in Hdrop. rewrite length_drop in Hdrop. simpl in Hdrop. lia.
Qed.

Lemma shutdown_step (s : state) (ev : event) :
  shutdown s = true -> shutdown (step s ev) = true.
Proof.
  intros Hs. destruct ev as [env|send_ok|]; simpl; [| |reflexivity].
  - unfold recv_step, recv_poll, recv_line, recv_finally. repeat case_match; simpl; auto.
  - unfold send_step. repeat case_match; simpl; auto.
Qed.

Lemma shutdown_run (schedule : list event) (s : state) :
  shutdown s = true -> shutdown (run schedule s) = true.
Proof.
  revert s. induction schedule as [|ev schedule IH]; intros s Hs; [assumption|].
  rewrite run_cons. apply IH, shutdown_step, Hs.
Qed.

Lemma sigint_run (schedule : list event) (s : state) :
  In Sigint schedule -> shutdown (run schedule s) = true.
Proof.
  revert s. induction schedule as [|ev schedule IH]; intros s; [intros []|].
  intros [-> | Hin]; rewrite run_cons.
  - apply shutdown_run. reflexivity.
  - apply IH, Hin.
Qed.

(** After Ctrl+C during a session, [run_ai_server] serves that session
    to its end and accepts no further connection. *)
Theorem no_connection_served_after_sigint
    (peer : list arrival) (schedule : list event)
    (connections : list (list arrival * list event)) :
  In Sigint schedule ->
  run_ai_server ((peer, schedule) :: connections)
  = [run schedule (handle_client false None peer)].
Proof.
  intros Hin. unfold run_ai_server. simpl.
  rewrite (sigint_run _ _ Hin).
  destruct (session_over _); [|reflexivity].
  destruct connections as [|[p sc] rest]; reflexivity.
Qed.

(** When [img.save] fails, the decision has already been stored in the
    slot; the exception leaves [recv_loop] through its [finally] clause,
    which sets the stop signal, and nothing is printed about it. *)
Theorem failed_save_ends_session
    (s : state) (env : line_env) (line rest : string) (upd : state_update)
    (img : Image) (inbox' : list arrival) (out : list effect) (cmd : string) :
  receiver s = RecvLines ->
  buffer s = line +:+ String newline rest ->
  has_newline line = false ->
  String.eqb (strip line) "" = false ->
  handle_state (strip line) (shared_state s) = Ok upd ->
  has_game_ended upd = false ->
  request_image (request_ok env) (inbox s) = (Some img, inbox', out) ->
  ai_image_analyzer img (cmd_type env) = Ok cmd ->
  save_ok env = false ->
  let s' := step s (Receiver env) in
  stop_event s' = true
  /\ receiver s' = RecvExited
  /\ next_command s' = Some cmd
  /\ effects s' = effects s ++ printed upd ++ [Sent GET_IMAGE].
Proof.
  intros Hpc Hbuf Hnl Hne Hupd Hended Hreq Hcmd Hsave.
  destruct (request_image_some _ _ _ _ _ Hreq) as [_ ->].
  cbv zeta. receiver_at Hpc. rewrite Hbuf, (split_nl_line _ _ Hnl). cbv zeta. rewrite Hne.
  simpl. rewrite Hupd, Hended. simpl. rewrite Hreq, Hcmd, Hsave. simpl.
  repeat split. rewrite <- app_assoc. reflexivity.
Qed.

(** A state frame that does not end the game, with [img.save] working,
    leaves the stop signal as it was and the receiver in its line loop,
    whatever becomes of the image fetch; the snapshot is the updated one,
    and the slot is as before or holds one of the six frames. *)
Theorem active_frame_keeps_session
    (s : state) (env : line_env) (line rest : string) (upd : state_update) :
  receiver s = RecvLines ->
  buffer s = line +:+ String newline rest ->
  has_newline line = false ->
  String.eqb (strip line) "" = false ->
  handle_state (strip line) (shared_state s) = Ok upd ->
  has_game_ended upd = false ->
  save_ok env = true ->
  let s' := step s (Receiver env) in
  stop_event s' = stop_event s
  /\ receiver s' = RecvLines
  /\ buffer s' = rest
  /\ shared_state s' = new_shared_state upd
  /\ (next_command s' = next_command s
      \/ exists cmd, In cmd command_frames /\ next_command s' = Some cmd).
Proof.
  intros Hpc Hbuf Hnl Hne Hupd Hended Hsave.
  cbv zeta. receiver_at Hpc. rewrite Hbuf, (split_nl_line _ _ Hnl). cbv zeta. rewrite Hne.
  simpl. rewrite Hupd, Hended. simpl.
  destruct (request_image (request_ok env) (inbox s)) as [[[img|] inbox'] out];
    [|simpl; rewrite Hpc; auto 10].
  destruct (ai_image_analyzer img (cmd_type env)) as [cmd|e] eqn:Hcmd.
  - rewrite Hsave. simpl. rewrite Hpc. do 4 (split; [reflexivity|]). right. exists cmd.
    split; [apply (random_choose_cmd_frames _ _ Hcmd)|reflexivity].
  - unfold ai_image_analyzer in Hcmd.
    destruct (random_choose_cmd_frame (cmd_type env)) as (c & d & Hc & _). congruence.
Qed.

(** A line on which the decoder raises anything but [JSONDecodeError]
    (such as [RecursionError] on very deep nesting) ends the receiver:
    the [except] clause does not catch it, the [finally] clause sets the
    stop signal, and the snapshot, the pending command and the output are
    as they were. *)
Theorem other_decoder_error_ends_session
    (s : state) (env : line_env) (line rest : string) (e : exn) :
  receiver s = RecvLines ->
  buffer s = line +:+ String newline rest ->
  has_newline line = false ->
  String.eqb (strip line) "" = false ->
  json_loads (strip line) = Raise e ->
  e <> JSONDecodeError ->
  let s' := step s (Receiver env) in
  stop_event s' = true
  /\ receiver s' = RecvExited
  /\ shared_state s' = shared_state s
  /\ next_command s' = next_command s
  /\ effects s' = effects s.
Proof.
  intros Hpc Hbuf Hnl Hne Hjson He. cbv zeta. receiver_at Hpc.
  rewrite Hbuf, (split_nl_line _ _ Hnl). cbv zeta. rewrite Hne.
  unfold handle_state, shared_state_after. simpl. rewrite Hjson. simpl.
  destruct e; try (repeat split; reflexivity). destruct He. reflexivity.
Qed.

End FurtherProperties.

(** [random_choose_cmd] never raises: for every draw it returns one of six
    frames, each ending in a newline, not empty, and made of ASCII
    characters only, so that it encodes and decodes back to itself; a draw
    outside 0..4 gives SHOOT. *)
Theorem random_choose_cmd_total (cmd_type : Z) :
  exists cmd data,
    random_choose_cmd cmd_type = Ok cmd
    /\ In cmd command_frames
    /\ pending (Some cmd) = Some cmd
    /\ encode_ascii cmd = Ok data
    /\ decode_ascii_ignore data = cmd
    /\ ((cmd_type < 0 \/ 4 < cmd_type)%Z -> cmd = "SHOOT" +:+ nl).
Proof.
  unfold random_choose_cmd.
  destruct (Z.eqb_spec cmd_type 0); [|destruct (Z.eqb_spec cmd_type 1);
    [|destruct (Z.eqb_spec cmd_type 2); [|destruct (Z.eqb_spec cmd_type 3);
      [|destruct (Z.eqb_spec cmd_type 4)]]]];
    (eexists; eexists; split; [reflexivity|]; split; [simpl; auto 10|];
     split; [reflexivity|]; split; [reflexivity|]; split; [reflexivity|];
     intros Hout; try lia; reflexivity).
Qed.

(** ** The further properties on concrete frames *)

Lemma handle_state_fields_witness :
  shared_state_after active_frame ∅ !! "numActivePlayers" = Some (VInt 2)
  /\ shared_state_after active_frame ∅ !! "score" = None
  /\ exists upd, handle_state active_frame ∅ = Ok upd /\ has_game_ended upd = false.
Proof.
  destruct (handle_state_fields active_frame (new_shared_state active_update) ∅)
    as (Hall & Hother & Hreturn).
  - vm_compute. reflexivity.
  - split; [|split].
    + rewrite Forall_forall in Hall.
      apply (Hall ("numActivePlayers", VInt 0)). right. left.
    + rewrite Hother; [reflexivity|]. intros Hin.
      repeat (apply elem_of_cons in Hin as [Hin|Hin]; [discriminate Hin|]).
      inversion Hin.
    + destruct Hreturn as (upd & Hupd & _ & Hended). exists upd. split; [exact Hupd|].
      rewrite Hended. reflexivity.
Defined.

Lemma non_object_frame_ends_session_witness :
  receiver (step (after_chunk ("5" +:+ nl) []) (Receiver env_jump)) = RecvExited.
Proof.
  refine (proj1 (proj2 (non_object_frame_ends_session
                          (after_chunk ("5" +:+ nl) []) env_jump "5" "" (VInt 5) _ _ _ _ _ _))).
  - reflexivity.
  - reflexivity.
  - reflexivity.
  - reflexivity.
  - vm_compute. reflexivity.
  - discriminate.
Defined.

Lemma active_frame_keeps_session_witness :
  stop_event (step (after_chunk (active_frame +:+ nl) image) (Receiver env_jump)) = false.
Proof.
  refine (proj1 (active_frame_keeps_session
                   (after_chunk (active_frame +:+ nl) image) env_jump active_frame ""
                   active_update _ _ _ _ _ _ _)).
  - reflexivity.
  - reflexivity.
  - reflexivity.
  - reflexivity.
  - vm_compute. reflexivity.
  - reflexivity.
  - reflexivity.
Defined.

Lemma flags_and_exits_are_final_witness :
  stop_event (run [Sender true; Sigint; Receiver env_jump] stopped) = true.
Proof.
  apply (proj1 (flags_and_exits_are_final [Sender true; Sigint; Receiver env_jump] stopped)).
  reflexivity.
Defined.

Lemma loops_exit_once_flag_set_witness :
  session_over
    (run [Receiver env_jump; Sender true; Receiver env_left; Receiver env_jump;
          Receiver env_jump] interrupted_with_backlog) = true.
Proof.
  apply loops_exit_once_flag_set.
  - reflexivity.
  - vm_compute. lia.
  - vm_compute. lia.
Defined.

Lemma request_image_frames_payload_witness :
  exists length_bytes data,
    length length_bytes = 4%nat
    /\ N.of_nat (length data) = int_from_bytes_big length_bytes
    /\ image_open data = Ok decoded_image
    /\ delivered image = length_bytes ++ data ++ delivered [].
Proof.
  apply (request_image_frames_payload true image [] decoded_image [Sent GET_IMAGE]).
  vm_compute. reflexivity.
Defined.

Lemma frame_split_over_two_reads_witness :
  let s := handle_client false None
             [Data (bytes ("{" +:+ q "gameEnded")); Data (bytes (":true}" +:+ nl))] in
  run [Receiver env_jump; Receiver env_jump; Receiver env_jump] s
  = set_receiver RecvLines
      (set_buffer
         (buffer s +:+ decode_ascii_ignore
                         (bytes ("{" +:+ q "gameEnded") ++ bytes (":true}" +:+ nl)))
         (set_inbox [] s)).
Proof.
  apply (frame_split_over_two_reads
           (handle_client false None
              [Data (bytes ("{" +:+ q "gameEnded")); Data (bytes (":true}" +:+ nl))])).
  - reflexivity.
  - reflexivity.
  - reflexivity.
  - discriminate.
  - discriminate.
  - vm_compute. lia.
  - vm_compute. lia.
  - reflexivity.
Defined.

Lemma random_choose_cmd_total_witness :
  random_choose_cmd 7 = Ok ("SHOOT" +:+ nl).
Proof.
  destruct (random_choose_cmd_total 7) as (cmd & data & Hcmd & _ & _ & _ & _ & Hout).
  rewrite Hcmd. f_equal. apply Hout. right. lia.
Defined.

Lemma format_2f_unit_interval_witness :
  exists k : Z,
    (0 <= k <= 100)%Z
    /\ format_2f f0_5
       = (if sign_bit f0_5 then "-" else "")
         +:+ decimal (k / 100) +:+ "." +:+ two_digits (k mod 100)
    /\ (inject_Z (2 * k - 1) <= 200 * (1 # 2))%Q
    /\ (200 * (1 # 2) <= inject_Z (2 * k + 1))%Q.
Proof.
  apply (format_2f_unit_interval f0_5 (1 # 2)).
  - reflexivity.
  - vm_compute. discriminate.
  - vm_compute. discriminate.
Defined.

Lemma build_joins_in_call_order_witness :
  AICommandBuilder.build ["LEFT:1.00"; "JUMP:0.50"] = "LEFT:1.00;JUMP:0.50".
Proof.
  destruct (build_joins_in_call_order ["LEFT:1.00"]) as (_ & _ & _ & _ & Hamount).
  destruct (Hamount f0_5 ["LEFT:1.00"; "JUMP:0.50"]) as (_ & _ & Hjump).
  apply Hjump. reflexivity.
Defined.

Lemma decision_between_send_and_clear_is_lost_witness :
  next_command (run [Receiver env_jump; Sender true] between_send_and_clear) = None.
Proof.
  refine (proj1 (proj2 (decision_between_send_and_clear_is_lost
                          between_send_and_clear env_jump ("JUMP:1.00" +:+ nl) true _ _))).
  - reflexivity.
  - split; [reflexivity|].
    exists active_frame, "", active_update, decoded_image, [], [Sent GET_IMAGE].
    split; [reflexivity|]. split; [reflexivity|]. split; [vm_compute; reflexivity|].
    split; [reflexivity|]. split; [reflexivity|]. split; reflexivity.
Defined.

Lemma failed_transmission_stops_session_witness :
  stop_event (step (handle_client false (Some ("JUMP:1.00" +:+ nl)) []) (Sender false)) = true.
Proof.
  refine (proj1 (failed_transmission_stops_session
                   (handle_client false (Some ("JUMP:1.00" +:+ nl)) []) false
                   ("JUMP:1.00" +:+ nl) _ _ _ _)).
  - reflexivity.
  - reflexivity.
  - reflexivity.
  - left. reflexivity.
Defined.

Lemma idle_sender_cycle_witness :
  run (map Sender (repeat true 12)) (handle_client false None [])
  = handle_client false None [].
Proof.
  refine (proj2 (idle_sender_cycle (handle_client false None []) (repeat true 12) _ _ _ _)).
  - reflexivity.
  - reflexivity.
  - reflexivity.
  - reflexivity.
Defined.

Lemma no_connection_served_after_sigint_witness :
  run_ai_server [([], [Sigint; Receiver env_jump; Sender true]); silent_peer]
  = [run [Sigint; Receiver env_jump; Sender true] (handle_client false None [])].
Proof.
  apply no_connection_served_after_sigint. left. reflexivity.
Defined.

Lemma failed_save_ends_session_witness :
  receiver (step (after_chunk (active_frame +:+ nl) image) (Receiver env_no_save))
  = RecvExited.
Proof.
  refine (proj1 (proj2 (failed_save_ends_session
                          (after_chunk (active_frame +:+ nl) image) env_no_save
                          active_frame "" active_update decoded_image []
                          [Sent GET_IMAGE] ("JUMP:1.00" +:+ nl) _ _ _ _ _ _ _ _ _))).
  - reflexivity.
  - reflexivity.
  - reflexivity.
  - reflexivity.
  - vm_compute. reflexivity.
  - reflexivity.
  - reflexivity.
  - reflexivity.
  - reflexivity.
Defined.

Lemma only_requests_and_commands_on_wire_witness :
  wire_ok None (bytes ("JUMP:1.00" +:+ nl)).
Proof.
  apply (only_requests_and_commands_on_wire
           [Receiver env_jump; Receiver env_jump; Sender true] false None
           (Data (bytes (active_frame +:+ nl)) :: image)).
  vm_compute. right. left. reflexivity.
Defined.

Lemma other_decoder_error_ends_session_witness :
  receiver (step (after_chunk (deep_line +:+ nl) []) (Receiver env_jump)) = RecvExited.
Proof.
  refine (proj1 (proj2 (other_decoder_error_ends_session
                          (after_chunk (deep_line +:+ nl) []) env_jump deep_line ""
                          RecursionError _ _ _ _ _ _))).
  - vm_compute. reflexivity.
  - vm_compute. reflexivity.
  - vm_compute. reflexivity.
  - vm_compute. reflexivity.
  - vm_compute. reflexivity.
  - discriminate.
Defined.
